(** * The editing-session state core of [src/components/FlowChart.tsx]

    A shallow embedding of the diagram model (nodes, edges, columns), the
    undo/redo history and the handlers of the [FlowChart] component, and the
    properties of the specification that concern them.

    Conventions of the embedding.
    - A React state cell is a field of [Session]; its setter, which takes an
      updater function, is a function [Session -> Session].
    - A handler is a closure over the values of the render it was created in.
      It is embedded as a function of that render [r] returning the queue of
      updates it issues, [Session -> Session].  [dispatch] runs a handler in
      the render of the current state, which is what React does for discrete
      events delivered one at a time.
    - JavaScript numbers that hold coordinates and timestamps are embedded as
      integers ([Z], [N]); every constant of the layout code is an integer and
      [(200 - 180) / 2] is exact.
    - The reducers of the rendering library ([applyNodeChanges],
      [applyEdgeChanges], [addEdge]) are not part of the component; they are
      section variables. *)

From Stdlib Require Import List String Ascii ZArith NArith Bool Lia.
From Stdlib Require Import DecimalString DecimalN.
Import ListNotations.

(** ** Diagram model *)

Record XYPosition : Type := mkXY { pos_x : Z; pos_y : Z }.

(** The [data] payload of a node.  [column] is absent for non-columnar nodes;
    [isHeader] is read through JavaScript truthiness, so an absent flag is
    [false]. *)
Record NodeData : Type := mkData {
  label : string;
  column : option string;
  isHeader : bool;
  color : option string;
  attributes : list (string * string)
}.

Record Node : Type := mkNode {
  node_id : string;
  node_type : option string;
  position : XYPosition;
  data : NodeData;
  draggable : option bool;
  backgroundColor : option string
}.

Record Marker : Type := mkMarker {
  marker_type : string;
  marker_width : Z;
  marker_height : Z;
  marker_color : option string
}.

Record EdgeStyle : Type := mkStyle { strokeWidth : Z; stroke : string }.

Record Edge : Type := mkEdge {
  edge_id : string;
  source : string;
  target : string;
  sourceHandle : option string;
  targetHandle : option string;
  animated : bool;
  edge_style : option EdgeStyle;
  edge_label : option string;
  markerEnd : option Marker
}.

Record Column : Type := mkColumn {
  column_id : string;
  title : string;
  column_color : string
}.

(** What the canvas hands to [onConnect]. *)
Record Connection : Type := mkConnection {
  conn_source : option string;
  conn_target : option string;
  conn_sourceHandle : option string;
  conn_targetHandle : option string
}.

(** The object [onConnect] passes to the library's [addEdge]: the connection
    spread, plus the default decoration. *)
Record EdgeParams : Type := mkEdgeParams {
  params : Connection;
  params_animated : bool;
  params_style : EdgeStyle;
  params_label : string;
  params_markerEnd : Marker
}.

(** What the creation dialog returns: a node without [id] and [position]. *)
Record NodeInit : Type := mkNodeInit {
  init_type : option string;
  init_data : NodeData
}.

(** ** Change notifications of the canvas *)

Inductive ChangeType : Type :=
  | position_change | select_change | dimensions_change
  | remove_change | add_change | reset_change.

Definition ChangeType_eqb (a b : ChangeType) : bool :=
  match a, b with
  | position_change, position_change
  | select_change, select_change
  | dimensions_change, dimensions_change
  | remove_change, remove_change
  | add_change, add_change
  | reset_change, reset_change => true
  | _, _ => false
  end.

Inductive NodeChange : Type :=
  | NodePositionChange (id : string) (pos : option XYPosition) (dragging : bool)
  | NodeSelectionChange (id : string) (selected : bool)
  | NodeDimensionChange (id : string) (width height : Z)
  | NodeRemoveChange (id : string)
  | NodeAddChange (item : Node)
  | NodeResetChange (item : Node).

Inductive EdgeChange : Type :=
  | EdgeSelectionChange (id : string) (selected : bool)
  | EdgeRemoveChange (id : string)
  | EdgeAddChange (item : Edge)
  | EdgeResetChange (item : Edge).

Definition node_change_type (c : NodeChange) : ChangeType :=
  match c with
  | NodePositionChange _ _ _ => position_change
  | NodeSelectionChange _ _ => select_change
  | NodeDimensionChange _ _ _ => dimensions_change
  | NodeRemoveChange _ => remove_change
  | NodeAddChange _ => add_change
  | NodeResetChange _ => reset_change
  end.

Definition edge_change_type (c : EdgeChange) : ChangeType :=
  match c with
  | EdgeSelectionChange _ _ => select_change
  | EdgeRemoveChange _ => remove_change
  | EdgeAddChange _ => add_change
  | EdgeResetChange _ => reset_change
  end.

(** ** Session state and history entries *)

(** One element of [undoStack] / [redoStack]: [{ nodes, edges }]. *)
Record HistoryEntry : Type := mkEntry {
  entry_nodes : list Node;
  entry_edges : list Edge
}.

(** A call to the notification library: [toast.success], [toast.info] or
    [toast.error] with its message. *)
Inductive ToastKind : Type := toast_success | toast_info | toast_error.

Record Session : Type := mkSession {
  nodes : list Node;
  edges : list Edge;
  selectedNode : option Node;
  selectedEdge : option Edge;
  availableColumns : list Column;
  undoStack : list HistoryEntry;
  redoStack : list HistoryEntry;
  toasts : list (ToastKind * string)
}.

(** The state setters.  Each takes an updater, as React's setters do. *)
Definition setNodes (f : list Node -> list Node) (s : Session) : Session :=
  mkSession (f (nodes s)) (edges s) (selectedNode s) (selectedEdge s)
            (availableColumns s) (undoStack s) (redoStack s) (toasts s).

Definition setEdges (f : list Edge -> list Edge) (s : Session) : Session :=
  mkSession (nodes s) (f (edges s)) (selectedNode s) (selectedEdge s)
            (availableColumns s) (undoStack s) (redoStack s) (toasts s).

Definition setSelectedNode (v : option Node) (s : Session) : Session :=
  mkSession (nodes s) (edges s) v (selectedEdge s)
            (availableColumns s) (undoStack s) (redoStack s) (toasts s).

Definition setSelectedEdge (v : option Edge) (s : Session) : Session :=
  mkSession (nodes s) (edges s) (selectedNode s) v
            (availableColumns s) (undoStack s) (redoStack s) (toasts s).

Definition setAvailableColumns (f : list Column -> list Column) (s : Session)
  : Session :=
  mkSession (nodes s) (edges s) (selectedNode s) (selectedEdge s)
            (f (availableColumns s)) (undoStack s) (redoStack s) (toasts s).

Definition setUndoStack (f : list HistoryEntry -> list HistoryEntry)
  (s : Session) : Session :=
  mkSession (nodes s) (edges s) (selectedNode s) (selectedEdge s)
            (availableColumns s) (f (undoStack s)) (redoStack s) (toasts s).

Definition setRedoStack (f : list HistoryEntry -> list HistoryEntry)
  (s : Session) : Session :=
  mkSession (nodes s) (edges s) (selectedNode s) (selectedEdge s)
            (availableColumns s) (undoStack s) (f (redoStack s)) (toasts s).

(** The notification is shown; the log keeps the calls in order. *)
Definition toast (k : ToastKind) (message : string) (s : Session) : Session :=
  mkSession (nodes s) (edges s) (selectedNode s) (selectedEdge s)
            (availableColumns s) (undoStack s) (redoStack s)
            (toasts s ++ [(k, message)]).

(** ** Deep copies

    [JSON.parse(JSON.stringify(v))] rebuilds every object and array of [v].
    On the data of this model (strings, integers, booleans, records and
    lists of them) the copy has the same contents as the original. *)

Definition copy_option {A : Type} (copy : A -> A) (o : option A) : option A :=
  match o with
  | Some a => Some (copy a)
  | None => None
  end.

Definition copy_position (p : XYPosition) : XYPosition :=
  mkXY (pos_x p) (pos_y p).

Definition copy_data (d : NodeData) : NodeData :=
  mkData (label d) (column d) (isHeader d) (color d)
         (map (fun kv => (fst kv, snd kv)) (attributes d)).

Definition copy_node (n : Node) : Node :=
  mkNode (node_id n) (node_type n) (copy_position (position n))
         (copy_data (data n)) (draggable n) (backgroundColor n).

Definition copy_marker (m : Marker) : Marker :=
  mkMarker (marker_type m) (marker_width m) (marker_height m) (marker_color m).

Definition copy_style (st : EdgeStyle) : EdgeStyle :=
  mkStyle (strokeWidth st) (stroke st).

Definition copy_edge (e : Edge) : Edge :=
  mkEdge (edge_id e) (source e) (target e) (sourceHandle e) (targetHandle e)
         (animated e) (copy_option copy_style (edge_style e)) (edge_label e)
         (copy_option copy_marker (markerEnd e)).

(** [{ nodes: JSON.parse(JSON.stringify(nodes)),
       edges: JSON.parse(JSON.stringify(edges)) }] *)
Definition deepCopy (r : Session) : HistoryEntry :=
  mkEntry (map copy_node (nodes r)) (map copy_edge (edges r)).

(** ** Helpers standing for JavaScript built-ins *)

(** [a === b] where both sides may be [undefined]. *)
Definition option_string_eqb (a b : option string) : bool :=
  match a, b with
  | Some u, Some v => String.eqb u v
  | None, None => true
  | _, _ => false
  end.

(** [Array.prototype.findIndex]: the index of the first match, [-1] if none. *)
Fixpoint findIndex {A : Type} (p : A -> bool) (l : list A) : Z :=
  match l with
  | [] => (-1)%Z
  | a :: l' =>
      if p a then 0%Z
      else match findIndex p l' with
           | Zneg _ => (-1)%Z
           | i => (i + 1)%Z
           end
  end.

(** The decimal text of a non-negative integer, as a template literal
    prints it. *)
Definition decimal (n : N) : string :=
  NilEmpty.string_of_uint (N.to_uint n).

(** ** Reference reducers

    The component leaves the three reducers to the rendering library.  The
    general results below hold for any reducers; these reference versions,
    written after the library's behaviour on the fields this model keeps, are
    what the concrete sessions further down are run with. *)

Definition changes_for (id : string) (changes : list NodeChange)
  : list NodeChange :=
  filter (fun c =>
            match c with
            | NodePositionChange i _ _ | NodeSelectionChange i _
            | NodeDimensionChange i _ _ | NodeRemoveChange i => String.eqb i id
            | NodeAddChange _ | NodeResetChange _ => false
            end) changes.

(** The changes addressed to one node, applied in order; [None] once the
    node is removed. *)
Fixpoint apply_to_node (cs : list NodeChange) (item : Node) : option Node :=
  match cs with
  | [] => Some item
  | NodePositionChange _ (Some p) _ :: cs' =>
      apply_to_node cs'
        (mkNode (node_id item) (node_type item) p (data item)
                (draggable item) (backgroundColor item))
  | NodeRemoveChange _ :: _ => None
  | _ :: cs' => apply_to_node cs' item
  end.

Definition ref_applyNodeChanges (changes : list NodeChange)
  (elements : list Node) : list Node :=
  let resets :=
    flat_map (fun c => match c with NodeResetChange n => [n] | _ => [] end)
             changes in
  match resets with
  | _ :: _ => resets
  | [] =>
      flat_map (fun c => match c with NodeAddChange n => [n] | _ => [] end)
               changes
      ++ flat_map (fun item =>
                     match apply_to_node (changes_for (node_id item) changes)
                                         item with
                     | Some item' => [item']
                     | None => []
                     end) elements
  end.

Definition ref_applyEdgeChanges (changes : list EdgeChange)
  (elements : list Edge) : list Edge :=
  let resets :=
    flat_map (fun c => match c with EdgeResetChange e => [e] | _ => [] end)
             changes in
  match resets with
  | _ :: _ => resets
  | [] =>
      flat_map (fun c => match c with EdgeAddChange e => [e] | _ => [] end)
               changes
      ++ filter (fun item =>
                   negb (existsb (fun c =>
                                    match c with
                                    | EdgeRemoveChange i =>
                                        String.eqb i (edge_id item)
                                    | _ => false
                                    end) changes)) elements
  end.

Definition handle_text (h : option string) : string :=
  match h with Some t => t | None => EmptyString end.

(** [addEdge]: nothing without both endpoints or when the same connection
    is already there; otherwise the edge, with a generated id, at the end. *)
Definition ref_addEdge (edgeParams : EdgeParams) (eds : list Edge)
  : list Edge :=
  let c := params edgeParams in
  match conn_source c, conn_target c with
  | Some src, Some tgt =>
      if existsb (fun el =>
                    String.eqb (source el) src && String.eqb (target el) tgt
                    && option_string_eqb (sourceHandle el) (conn_sourceHandle c)
                    && option_string_eqb (targetHandle el) (conn_targetHandle c))
                 eds
      then eds
      else eds ++ [mkEdge
                     (String.append "reactflow__edge-"
                        (String.append src
                           (String.append (handle_text (conn_sourceHandle c))
                              (String.append "-"
                                 (String.append tgt
                                    (handle_text (conn_targetHandle c)))))))
                     src tgt (conn_sourceHandle c) (conn_targetHandle c)
                     (params_animated edgeParams)
                     (Some (params_style edgeParams))
                     (Some (params_label edgeParams))
                     (Some (params_markerEnd edgeParams))]
  | _, _ => eds
  end.

(** ** The handlers of the component *)

Section FlowChart.

(** The reducers of the rendering library. *)
Variable applyNodeChanges : list NodeChange -> list Node -> list Node.
Variable applyEdgeChanges : list EdgeChange -> list Edge -> list Edge.
Variable addEdge : EdgeParams -> list Edge -> list Edge.

Definition saveCurrentState (r : Session) (s : Session) : Session :=
  let s := setUndoStack (fun prev => prev ++ [deepCopy r]) s in
  setRedoStack (fun _ => []) s.

Definition onNodesChange (r : Session) (changes : list NodeChange)
  (s : Session) : Session :=
  let nonPositionChanges :=
    filter (fun change =>
              negb (ChangeType_eqb (node_change_type change) position_change)
              && negb (ChangeType_eqb (node_change_type change) select_change))
           changes in
  let s := if (0 <? List.length nonPositionChanges)%nat
           then saveCurrentState r s else s in
  setNodes (fun nds => applyNodeChanges changes nds) s.

Definition onEdgesChange (r : Session) (changes : list EdgeChange)
  (s : Session) : Session :=
  let nonSelectChanges :=
    filter (fun change =>
              negb (ChangeType_eqb (edge_change_type change) select_change))
           changes in
  let s := if (0 <? List.length nonSelectChanges)%nat
           then saveCurrentState r s else s in
  setEdges (fun eds => applyEdgeChanges changes eds) s.

Definition onConnect (r : Session) (connection : Connection) (s : Session)
  : Session :=
  let s := saveCurrentState r s in
  let s := setEdges
             (fun eds =>
                addEdge (mkEdgeParams connection true (mkStyle 2 "#555")
                           "Hubungan"
                           (mkMarker "arrowclosed" 20 20 (Some "#555"%string)))
                        eds) s in
  toast toast_success "Elemen berhasil dihubungkan" s.

Definition onNodeClick (r : Session) (node : Node) (s : Session) : Session :=
  let s := setSelectedNode (Some node) s in
  setSelectedEdge None s.

Definition onEdgeClick (r : Session) (edge : Edge) (s : Session) : Session :=
  let s := setSelectedEdge (Some edge) s in
  setSelectedNode None s.

Definition onPaneClick (r : Session) (s : Session) : Session :=
  let s := setSelectedNode None s in
  setSelectedEdge None s.

Definition onNodeDragStop (r : Session) (s : Session) : Session :=
  saveCurrentState r s.

(** The node [handleCreateNode] builds; [now] is [Date.now()]. *)
Definition newNode (r : Session) (nodeData : NodeInit) (now : N) : Node :=
  let sameColumnNodes :=
    filter (fun node =>
              option_string_eqb (column (data node))
                                (column (init_data nodeData))
              && negb (isHeader (data node)))
           (nodes r) in
  let y :=
    match map (fun node => pos_y (position node)) sameColumnNodes with
    | [] => 100%Z
    | y0 :: ys => (fold_left Z.max ys y0 + 120)%Z
    end in
  let columnIndex :=
    findIndex (fun col =>
                 match column (init_data nodeData) with
                 | Some c => String.eqb (column_id col) c
                 | None => false
                 end)
              (availableColumns r) in
  let nodeWidth := 180%Z in
  let gap := 80%Z in
  let x := (columnIndex * (200 + gap) + (200 - nodeWidth) / 2)%Z in
  mkNode (String.append "node-" (decimal now)) (init_type nodeData)
         (mkXY x y) (init_data nodeData) None None.

Definition handleCreateNode (r : Session) (nodeData : NodeInit) (now : N)
  (s : Session) : Session :=
  let s := saveCurrentState r s in
  setNodes (fun nds => nds ++ [newNode r nodeData now]) s.

(** The header node [addColumn] builds. *)
Definition headerNode (r : Session) (columnData : Column) : Node :=
  let columnIndex := Z.of_nat (List.length (availableColumns r)) in
  let columnWidth := 200%Z in
  let gap := 80%Z in
  let nodeWidth := 180%Z in
  let x := (columnIndex * (columnWidth + gap)
            + (columnWidth - nodeWidth) / 2)%Z in
  mkNode (String.append "header-" (column_id columnData))
         (Some "customNode"%string)
         (mkXY x 10)
         (mkData (title columnData) (Some (column_id columnData)) true
                 (Some (column_color columnData)) [])
         (Some false)
         (Some (column_color columnData)).

Definition addColumn (r : Session) (columnData : Column) (s : Session)
  : Session :=
  let s := saveCurrentState r s in
  let s := setAvailableColumns (fun prevColumns => prevColumns ++ [columnData])
                               s in
  let s := setNodes (fun nds => nds ++ [headerNode r columnData]) s in
  toast toast_success
        (String.append "Kolom "
           (String.append (title columnData) " berhasil ditambahkan")) s.

(** [{ ...node, data: data }] *)
Definition with_data (node : Node) (d : NodeData) : Node :=
  mkNode (node_id node) (node_type node) (position node) d
         (draggable node) (backgroundColor node).

Definition updateNode (r : Session) (nodeId : string) (d : NodeData)
  (s : Session) : Session :=
  let s := saveCurrentState r s in
  setNodes (fun nds =>
              map (fun node =>
                     if String.eqb (node_id node) nodeId
                     then with_data node d else node)
                  nds) s.

Definition deleteNode (r : Session) (nodeId : string) (s : Session)
  : Session :=
  let s := saveCurrentState r s in
  let s := setNodes
             (fun nds =>
                filter (fun node => negb (String.eqb (node_id node) nodeId))
                       nds) s in
  setEdges
    (fun eds =>
       filter (fun edge =>
                 negb (String.eqb (source edge) nodeId)
                 && negb (String.eqb (target edge) nodeId))
              eds) s.

(** [undoStack[undoStack.length - 1]] is read with [nth_error]; the length
    test before it makes the [None] branch unreachable. *)
Definition handleUndo (r : Session) (s : Session) : Session :=
  if (List.length (undoStack r) =? 0)%nat then s
  else
    let currentState := deepCopy r in
    match nth_error (undoStack r) (List.length (undoStack r) - 1) with
    | None => s
    | Some previousState =>
        let s := setRedoStack (fun prev => prev ++ [currentState]) s in
        let s := setUndoStack (fun prev => removelast prev) s in
        let s := setNodes (fun _ => entry_nodes previousState) s in
        let s := setEdges (fun _ => entry_edges previousState) s in
        toast toast_info "Undo berhasil" s
    end.

Definition handleRedo (r : Session) (s : Session) : Session :=
  if (List.length (redoStack r) =? 0)%nat then s
  else
    let currentState := deepCopy r in
    match nth_error (redoStack r) (List.length (redoStack r) - 1) with
    | None => s
    | Some nextState =>
        let s := setUndoStack (fun prev => prev ++ [currentState]) s in
        let s := setRedoStack (fun prev => removelast prev) s in
        let s := setNodes (fun _ => entry_nodes nextState) s in
        let s := setEdges (fun _ => entry_edges nextState) s in
        toast toast_info "Redo berhasil" s
    end.

(** ** Events *)

(** What the user and the canvas can ask of the component. *)
Inductive Event : Type :=
  | NodesChange (changes : list NodeChange)
  | EdgesChange (changes : list EdgeChange)
  | Connect (connection : Connection)
  | NodeClick (node : Node)
  | EdgeClick (edge : Edge)
  | PaneClick
  | NodeDragStop
  | CreateNode (nodeData : NodeInit) (now : N)
  | AddColumn (columnData : Column)
  | UpdateNode (nodeId : string) (d : NodeData)
  | DeleteNode (nodeId : string)
  | Undo
  | Redo.

Definition handler (ev : Event) (r : Session) : Session -> Session :=
  match ev with
  | NodesChange changes => onNodesChange r changes
  | EdgesChange changes => onEdgesChange r changes
  | Connect connection => onConnect r connection
  | NodeClick node => onNodeClick r node
  | EdgeClick edge => onEdgeClick r edge
  | PaneClick => onPaneClick r
  | NodeDragStop => onNodeDragStop r
  | CreateNode nodeData now => handleCreateNode r nodeData now
  | AddColumn columnData => addColumn r columnData
  | UpdateNode nodeId d => updateNode r nodeId d
  | DeleteNode nodeId => deleteNode r nodeId
  | Undo => handleUndo r
  | Redo => handleRedo r
  end.

(** One event: the handler of the current render runs on the current state. *)
Definition dispatch (ev : Event) (s : Session) : Session := handler ev s s.

(** A sequence of events, each handled in the render that follows the one
    before it. *)
Definition run (evs : list Event) (s : Session) : Session :=
  fold_left (fun st ev => dispatch ev st) evs s.

(** ** Classes of events *)

(** The structural mutations: node add, node delete, node data update, edge
    connect, column add.  Each handler starts with [saveCurrentState()]. *)
Definition structural (ev : Event) : bool :=
  match ev with
  | CreateNode _ _ | DeleteNode _ | UpdateNode _ _ | Connect _ | AddColumn _ =>
      true
  | _ => false
  end.

Definition all_of_type (t : ChangeType) (cs : list NodeChange) : bool :=
  forallb (fun c => ChangeType_eqb (node_change_type c) t) cs.

(** Clicks on a node, an edge or the pane, and change notifications that
    carry ['select'] changes only. *)
Definition selection_only (ev : Event) : bool :=
  match ev with
  | NodeClick _ | EdgeClick _ | PaneClick => true
  | NodesChange cs => all_of_type select_change cs
  | EdgesChange cs =>
      forallb (fun c => ChangeType_eqb (edge_change_type c) select_change) cs
  | _ => false
  end.

Definition is_undo (ev : Event) : bool :=
  match ev with Undo => true | _ => false end.

(** A drag gesture as the component sees it: the selection made by the
    mouse-down, one ['position'] notification per move, and [onNodeDragStop]
    at the mouse-up. *)
Definition drag_moves (mousedown : list NodeChange)
  (moves : list (list NodeChange)) : list Event :=
  NodesChange mousedown :: map NodesChange moves.

Definition drag_gesture (mousedown : list NodeChange)
  (moves : list (list NodeChange)) : list Event :=
  drag_moves mousedown moves ++ [NodeDragStop].

(** ** How a call ends

    The handlers of the component return [void]; none of them throws, and
    none has a branch that rejects its argument.  A call therefore always
    ends in [Returned], with the state it leaves. *)
Inductive Failure : Type := DuplicateId | NotFound.

Inductive Outcome : Type :=
  | Returned (s : Session)
  | Failed (e : Failure).

Definition outcome (ev : Event) (s : Session) : Outcome :=
  Returned (dispatch ev s).

End FlowChart.

(** ** The operations as the specification words them

    Used only to compare with the handlers above. *)

Definition has_node (nodeId : string) (s : Session) : Prop :=
  exists n, In n (nodes s) /\ node_id n = nodeId.

Definition has_column (columnId : string) (s : Session) : Prop :=
  exists c, In c (availableColumns s) /\ column_id c = columnId.

(** "nodes where column == C and isHeader == false" *)
Definition in_column (C : string) (n : Node) : Prop :=
  column (data n) = Some C /\ isHeader (data n) = false.

(** The column with id [C] sits at ordinal index [i]. *)
Definition column_index (cols : list Column) (C : string) (i : nat) : Prop :=
  (exists col, nth_error cols i = Some col /\ column_id col = C)
  /\ forall j col, (j < i)%nat -> nth_error cols j = Some col ->
                   column_id col <> C.

(** Every edge joins two nodes of the model. *)
Definition edges_closed (s : Session) : Prop :=
  forall e, In e (edges s) ->
            has_node (source e) s /\ has_node (target e) s.

(** "fails with DuplicateId if column.id already present", leaving the
    column sequence and the nodes as they were. *)
Definition addColumn_rejects_duplicates
  (addColumn_outcome : Column -> Session -> Outcome) : Prop :=
  forall s c, has_column (column_id c) s ->
              addColumn_outcome c s = Failed DuplicateId.

(** "fails with NotFound if id absent" *)
Definition updateNodeData_rejects_missing
  (updateNode_outcome : string -> NodeData -> Session -> Outcome) : Prop :=
  forall s nodeId d, ~ has_node nodeId s ->
                     updateNode_outcome nodeId d s = Failed NotFound.

(** "it is a no-op when the id is absent" *)
Definition removeNode_noop_when_absent
  (removeNode : string -> Session -> Session) : Prop :=
  forall s nodeId, ~ has_node nodeId s ->
                   nodes (removeNode nodeId s) = nodes s
                   /\ edges (removeNode nodeId s) = edges s.

(** ** Sample sessions *)

Definition columnA : Column := mkColumn "A" "Alpha" "#ff0000".
Definition columnB : Column := mkColumn "B" "Beta" "#00ff00".

Definition taskData (C : string) (text : string) : NodeData :=
  mkData text (Some C) false None [].

Definition sampleNode (i : string) (C : string) (px py : Z) : Node :=
  mkNode i (Some "customNode"%string) (mkXY px py) (taskData C i) None None.

Definition sampleEdge (i src tgt : string) : Edge :=
  mkEdge i src tgt None None true None None None.

Definition emptySession : Session :=
  mkSession [] [] None None [] [] [] [].

(** Column [A] with its header and two tasks joined by an edge. *)
Definition session0 : Session :=
  mkSession
    [ mkNode "header-A" (Some "customNode"%string) (mkXY 10 10)
             (mkData "Alpha" (Some "A"%string) true (Some "#ff0000"%string) [])
             (Some false) (Some "#ff0000"%string);
      sampleNode "n1" "A" 10 100;
      sampleNode "n2" "A" 10 220 ]
    [ sampleEdge "e1" "n1" "n2" ]
    None None [ columnA ] [] [] [].

Definition ref_dispatch : Event -> Session -> Session :=
  dispatch ref_applyNodeChanges ref_applyEdgeChanges ref_addEdge.

Definition ref_run : list Event -> Session -> Session :=
  run ref_applyNodeChanges ref_applyEdgeChanges ref_addEdge.

(** The canvas has removed [n1] with a notification of its own; the edge
    [e1], which starts at [n1], is still there. *)
Definition session_dangling : Session :=
  ref_dispatch (NodesChange [NodeRemoveChange "n1"]) session0.

(** A session with something to redo: [n1] deleted, then undone. *)
Definition session_after_undo : Session :=
  ref_dispatch Undo (ref_dispatch (DeleteNode "n1") session0).

Definition taskA : NodeInit :=
  mkNodeInit (Some "customNode"%string) (taskData "A" "task").

(** Column [A] and its header, nothing else. *)
Definition session_columnA : Session :=
  ref_dispatch (AddColumn columnA) emptySession.

(** A drag: [n1] is picked at (10, 100) and moved, in two
    steps, to (70, 80). *)
Definition sample_drag : list Event :=
  drag_gesture
    [NodeSelectionChange "n1" true]
    [ [NodePositionChange "n1" (Some (mkXY 50 60)) true];
      [NodePositionChange "n1" (Some (mkXY 70 80)) true] ].

(** ** The page around the canvas

    The handlers outside the editing core: the keyboard dispatcher, saving
    to the browser store, the two exports and the zoom buttons.  They read
    the page (focus, mounted elements, the canvas instance) and act on
    collaborators; the calls they make are kept, in order, in [calls]. *)

Record KeyboardEvent : Type := mkKey {
  ctrlKey : bool;
  metaKey : bool;
  shiftKey : bool;
  key : string
}.

(** What the handlers read from the page.  [instance] is
    [reactFlowInstance.current], given by the text
    [JSON.stringify(instance.toObject())] when it is set. *)
Record Page : Type := mkPage {
  activeTag : string;
  wrapper : bool;
  flowElement : bool;
  viewport : bool;
  instance : option string
}.

(** The calls made on collaborators.  [SetItem] is [localStorage.setItem];
    its value, the JSON text of a [{ nodes, edges }] object, is kept as that
    object.  [Download] is the click on a link with its [download] name and
    [href]; [SetTimeout] the timer that starts the rasterisation. *)
Inductive Call : Type :=
  | PreventDefault
  | ZoomIn
  | ZoomOut
  | FitView
  | SetItem (storageKey : string) (document : HistoryEntry)
  | Download (fileName href : string)
  | SetTimeout (delay : Z).

Record Flow : Type := mkFlow {
  session : Session;
  isModalOpen : bool;
  isColumnModalOpen : bool;
  isShortcutHelpOpen : bool;
  calls : list Call
}.

Definition on_session (f : Session -> Session) (v : Flow) : Flow :=
  mkFlow (f (session v)) (isModalOpen v) (isColumnModalOpen v)
         (isShortcutHelpOpen v) (calls v).

Definition setIsModalOpen (b : bool) (v : Flow) : Flow :=
  mkFlow (session v) b (isColumnModalOpen v) (isShortcutHelpOpen v) (calls v).

Definition setIsColumnModalOpen (b : bool) (v : Flow) : Flow :=
  mkFlow (session v) (isModalOpen v) b (isShortcutHelpOpen v) (calls v).

Definition setIsShortcutHelpOpen (b : bool) (v : Flow) : Flow :=
  mkFlow (session v) (isModalOpen v) (isColumnModalOpen v) b (calls v).

Definition call (c : Call) (v : Flow) : Flow :=
  mkFlow (session v) (isModalOpen v) (isColumnModalOpen v)
         (isShortcutHelpOpen v) (calls v ++ [c]).

(** What the browser store holds under a key after the calls made:
    [setItem] overwrites. *)
Fixpoint stored (k : string) (cs : list Call) : option HistoryEntry :=
  match cs with
  | [] => None
  | c :: cs' =>
      match stored k cs' with
      | Some d => Some d
      | None =>
          match c with
          | SetItem k' d => if String.eqb k' k then Some d else None
          | _ => None
          end
      end
  end.

(** [iso.split('T')[0]] *)
Fixpoint before_T (iso : string) : string :=
  match iso with
  | EmptyString => EmptyString
  | String c rest =>
      if Ascii.eqb c "T" then EmptyString else String c (before_T rest)
  end.

(** [str.indexOf(className)] *)
Definition indexOf (str className : string) : Z :=
  match String.index 0 className str with
  | Some n => Z.of_nat n
  | None => (-1)%Z
  end.

(** The [className] of a DOM node: a string, an animated string with its
    [baseVal], another object that has [toString], one that has neither, or
    nothing. *)
Inductive ClassName : Type :=
  | ClassString (text : string)
  | ClassAnimated (baseVal : string)
  | ClassObject (toString : string)
  | ClassOpaque
  | ClassMissing.

(** The [filter] option given to the rasteriser; [None] is a falsy node. *)
Definition imageFilter (node : option ClassName) : bool :=
  match node with
  | None => true
  | Some className =>
      let classStr :=
        match className with
        | ClassMissing => EmptyString
        | ClassString text => text
        | ClassAnimated baseVal => baseVal
        | ClassObject toString => toString
        | ClassOpaque => EmptyString
        end in
      let checkClass := fun str cls => Z.eqb (indexOf str cls) (-1) in
      checkClass classStr "react-flow__controls"%string
      && checkClass classStr "react-flow__minimap"%string
      && checkClass classStr "react-flow__panel"%string
      && checkClass classStr "toast-"%string
  end.

(** How a call of the rasteriser ends: its promise resolves with a data URL,
    rejects with an error, or the call itself throws. *)
Inductive Attempt : Type :=
  | Resolved (dataUrl : string)
  | Rejected (message : string)
  | Thrown.

Section PageHandlers.

Variable encodeURIComponent : string -> string.

Definition handleSave (r : Flow) (v : Flow) : Flow :=
  let flowData :=
    mkEntry (filter (fun node => negb (isHeader (data node)))
                    (nodes (session r)))
            (edges (session r)) in
  let v := call (SetItem "flowChart" flowData) v in
  on_session (toast toast_success "Diagram berhasil disimpan") v.

Definition handleExport (page : Page) (v : Flow) : Flow :=
  match instance page with
  | Some dataStr =>
      let dataUri :=
        String.append "data:application/json;charset=utf-8,"
                      (encodeURIComponent dataStr) in
      let exportFileDefaultName := "flowchart-export.json"%string in
      let v := call (Download exportFileDefaultName dataUri) v in
      on_session (toast toast_success "Diagram berhasil diexport") v
  | None => v
  end.

(** The part of [handleSaveAsImage] that runs at once; the rasterisation is
    left to a timer. *)
Definition handleSaveAsImage (page : Page) (v : Flow) : Flow :=
  if negb (wrapper page)
  then on_session (toast toast_error "Referensi diagram tidak ditemukan") v
  else if negb (flowElement page)
  then on_session (toast toast_error "Tidak dapat menemukan elemen diagram") v
  else
    let v := on_session (toast toast_info "Sedang memproses gambar...") v in
    let targetElement := viewport page || flowElement page in
    if negb targetElement
    then on_session
           (toast toast_error "Tidak dapat menemukan konten diagram") v
    else call (SetTimeout 100) v.

(** The timer callback of [handleSaveAsImage]: the first call of the
    rasteriser, and the second one its rejection leads to.  [iso] is
    [new Date().toISOString()] at the time the file is named. *)
Definition imageTimer (first second : Attempt) (iso : string) (v : Flow)
  : Flow :=
  match first with
  | Resolved dataUrl =>
      let tanggal := before_T iso in
      let v := call (Download
                       (String.append "flowchart-"
                          (String.append tanggal ".png")) dataUrl) v in
      on_session
        (toast toast_success "Diagram berhasil disimpan sebagai gambar") v
  | Rejected message =>
      let v := on_session
                 (toast toast_error
                    (String.append "Gagal menyimpan gambar: " message)) v in
      match second with
      | Resolved dataUrl =>
          let tanggal := before_T iso in
          let v := call (Download
                           (String.append "flowchart-"
                              (String.append tanggal "-alt.png")) dataUrl) v in
          on_session
            (toast toast_success
                   "Diagram berhasil disimpan dengan metode alternatif") v
      | Rejected _ =>
          on_session
            (toast toast_error "Semua metode gagal menyimpan gambar") v
      | Thrown =>
          on_session
            (toast toast_error "Gagal menggunakan metode alternatif") v
      end
  | Thrown => v
  end.

Definition handleZoomIn (page : Page) (v : Flow) : Flow :=
  match instance page with Some _ => call ZoomIn v | None => v end.

Definition handleZoomOut (page : Page) (v : Flow) : Flow :=
  match instance page with Some _ => call ZoomOut v | None => v end.

Definition handleFitView (page : Page) (v : Flow) : Flow :=
  match instance page with Some _ => call FitView v | None => v end.

Definition has_selection (o : option Node) : bool :=
  match o with Some _ => true | None => false end.

(** The [keydown] listener.  [r] is the render the listener was installed
    in. *)
Definition handleKeyDown (page : Page) (r : Flow) (event : KeyboardEvent)
  (v : Flow) : Flow :=
  if existsb (String.eqb (activeTag page)) ["INPUT"; "TEXTAREA"]%string
  then v
  else
    let ctrlOrCmd := ctrlKey event || metaKey event in
    if ctrlOrCmd && String.eqb (key event) "n" then
      let v := call PreventDefault v in
      setIsModalOpen true v
    else if ctrlOrCmd && shiftKey event && String.eqb (key event) "c" then
      let v := call PreventDefault v in
      setIsColumnModalOpen true v
    else if ctrlOrCmd && negb (shiftKey event) && String.eqb (key event) "z"
            && (0 <? List.length (undoStack (session r)))%nat then
      let v := call PreventDefault v in
      on_session (handleUndo (session r)) v
    else if (ctrlOrCmd && shiftKey event && String.eqb (key event) "z")
            || (ctrlOrCmd && String.eqb (key event) "y") then
      let v := call PreventDefault v in
      if (0 <? List.length (redoStack (session r)))%nat
      then on_session (handleRedo (session r)) v else v
    else if ctrlOrCmd && negb (shiftKey event) && String.eqb (key event) "s"
    then
      let v := call PreventDefault v in
      handleSaveAsImage page v
    else if ctrlOrCmd && String.eqb (key event) "e" then
      let v := call PreventDefault v in
      handleExport page v
    else if ctrlOrCmd
            && (String.eqb (key event) "+" || String.eqb (key event) "=") then
      let v := call PreventDefault v in
      handleZoomIn page v
    else if ctrlOrCmd && String.eqb (key event) "-" then
      let v := call PreventDefault v in
      handleZoomOut page v
    else if ctrlOrCmd && String.eqb (key event) "0" then
      let v := call PreventDefault v in
      handleFitView page v
    else if (String.eqb (key event) "Delete"
             || String.eqb (key event) "Backspace")
            && has_selection (selectedNode (session r)) then
      match selectedNode (session r) with
      | Some selected =>
          let v := call PreventDefault v in
          let v := on_session (deleteNode (session r) (node_id selected)) v in
          on_session (setSelectedNode None) v
      | None => v
      end
    else if String.eqb (key event) "?" then
      let v := call PreventDefault v in
      setIsShortcutHelpOpen true v
    else v.

(** A key pressed: the listener of the current render runs. *)
Definition keydown (page : Page) (event : KeyboardEvent) (v : Flow) : Flow :=
  handleKeyDown page v event v.

End PageHandlers.

(** ** Well-formed diagrams *)

(** Node ids are pairwise distinct and every edge joins two of the nodes. *)
Definition well_formed (ns : list Node) (es : list Edge) : Prop :=
  NoDup (map node_id ns)
  /\ forall e, In e es ->
               In (source e) (map node_id ns) /\ In (target e) (map node_id ns).

(** The diagram shown and every diagram kept in the history are well
    formed. *)
Definition all_well_formed (s : Session) : Prop :=
  well_formed (nodes s) (edges s)
  /\ forall e, In e (undoStack s ++ redoStack s) ->
               well_formed (entry_nodes e) (entry_edges e).

(** What an event must bring for the diagram to stay well formed: a fresh
    id for a created node or header, and, from the library's reducers, a
    well-formed result. *)
Definition keeps_well_formed
  (applyNodeChanges : list NodeChange -> list Node -> list Node)
  (applyEdgeChanges : list EdgeChange -> list Edge -> list Edge)
  (addEdge : EdgeParams -> list Edge -> list Edge)
  (ev : Event) (s : Session) : Prop :=
  match ev with
  | CreateNode _ now =>
      ~ In (String.append "node-" (decimal now)) (map node_id (nodes s))
  | AddColumn columnData =>
      ~ In (String.append "header-" (column_id columnData))
           (map node_id (nodes s))
  | NodesChange changes =>
      well_formed (applyNodeChanges changes (nodes s)) (edges s)
  | EdgesChange changes =>
      well_formed (nodes s) (applyEdgeChanges changes (edges s))
  | Connect connection =>
      well_formed (nodes s)
        (edges (dispatch applyNodeChanges applyEdgeChanges addEdge
                         (Connect connection) s))
  | _ => True
  end.

(** The same along a sequence of events. *)
Fixpoint all_keep_well_formed
  (applyNodeChanges : list NodeChange -> list Node -> list Node)
  (applyEdgeChanges : list EdgeChange -> list Edge -> list Edge)
  (addEdge : EdgeParams -> list Edge -> list Edge)
  (evs : list Event) (s : Session) : Prop :=
  match evs with
  | [] => True
  | ev :: evs' =>
      keeps_well_formed applyNodeChanges applyEdgeChanges addEdge ev s
      /\ all_keep_well_formed applyNodeChanges applyEdgeChanges addEdge evs'
           (dispatch applyNodeChanges applyEdgeChanges addEdge ev s)
  end.

(** [M] is the largest [y] among the non-header nodes of column [C]. *)
Definition column_top (C : string) (s : Session) (M : Z) : Prop :=
  (exists m, In m (nodes s) /\ in_column C m /\ pos_y (position m) = M)
  /\ forall n, In n (nodes s) -> in_column C n ->
               (pos_y (position n) <= M)%Z.

Definition creation_events (creations : list (NodeInit * N)) : list Event :=
  map (fun c => CreateNode (fst c) (snd c)) creations.

Definition tasks_of (C : string) (creations : list (NodeInit * N)) : Prop :=
  forall c, In c creations ->
            column (init_data (fst c)) = Some C
            /\ isHeader (init_data (fst c)) = false.

(** The events that set the selection. *)
Definition is_click (ev : Event) : bool :=
  match ev with
  | NodeClick _ | EdgeClick _ | PaneClick => true
  | _ => false
  end.

(** The columns the events add, in order. *)
Definition added_columns (evs : list Event) : list Column :=
  flat_map (fun ev => match ev with AddColumn c => [c] | _ => [] end) evs.

(** [text] has [marker] somewhere inside. *)
Definition occurs_in (marker text : string) : Prop :=
  exists before after,
    text = String.append before (String.append marker after).

Definition class_text (className : ClassName) : string :=
  match className with
  | ClassString text => text
  | ClassAnimated baseVal => baseVal
  | ClassObject toString => toString
  | ClassOpaque | ClassMissing => EmptyString
  end.

(** Two states of the component show the same diagram, history and
    selection. *)
Definition same_diagram (v1 v2 : Flow) : Prop :=
  nodes (session v1) = nodes (session v2)
  /\ edges (session v1) = edges (session v2)
  /\ undoStack (session v1) = undoStack (session v2)
  /\ redoStack (session v1) = redoStack (session v2)
  /\ availableColumns (session v1) = availableColumns (session v2)
  /\ selectedNode (session v1) = selectedNode (session v2)
  /\ selectedEdge (session v1) = selectedEdge (session v2).

Definition outside_text_input (page : Page) : Prop :=
  activeTag page <> "INPUT"%string /\ activeTag page <> "TEXTAREA"%string.

Definition is_download (c : Call) : bool :=
  match c with Download _ _ => true | _ => false end.

Definition last_toast (v : Flow) : option (ToastKind * string) :=
  nth_error (toasts (session v)) (List.length (toasts (session v)) - 1).

Definition is_setItem (c : Call) : bool :=
  match c with SetItem _ _ => true | _ => false end.

(** The keys that act on the diagram. *)
Definition editing_key (k : string) : Prop :=
  k = "z"%string \/ k = "y"%string \/ k = "Delete"%string
  \/ k = "Backspace"%string.

(** A node of the diagram that is a column header. *)
Definition header_id (s : Session) (i : string) : Prop :=
  exists n, In n (nodes s) /\ isHeader (data n) = true /\ node_id n = i.

(** ** Every handler of the component *)

(** [closeDetails], the [onClose] of the detail panel. *)
Definition closeDetails (r : Session) (s : Session) : Session :=
  let s := setSelectedNode None s in
  setSelectedEdge None s.

(** Everything that can run a handler of the component: the events of the
    editing core (canvas callbacks, the results of the two dialogs, the
    detail panel's [onUpdate] and [onDelete], the undo and redo buttons),
    the detail panel's [onClose], a key pressed, the buttons of the toolbar
    and of the zoom panel, the timer of the image export, and the setters
    the dialogs and their buttons call. *)
Inductive Action : Type :=
  | Canvas (ev : Event)
  | CloseDetails
  | KeyDown (page : Page) (event : KeyboardEvent)
  | SaveClick
  | ExportClick (page : Page)
  | SaveAsImageClick (page : Page)
  | ImageTimer (first second : Attempt) (iso : string)
  | ZoomInClick (page : Page)
  | ZoomOutClick (page : Page)
  | ModalOpenChange (open : bool)
  | ColumnModalOpenChange (open : bool)
  | ShortcutHelpOpenChange (open : bool).

Section Component.

Variable applyNodeChanges : list NodeChange -> list Node -> list Node.
Variable applyEdgeChanges : list EdgeChange -> list Edge -> list Edge.
Variable addEdge : EdgeParams -> list Edge -> list Edge.
Variable encodeURIComponent : string -> string.

(** One action: the handler of the current render runs. *)
Definition act (a : Action) (v : Flow) : Flow :=
  match a with
  | Canvas ev =>
      on_session (dispatch applyNodeChanges applyEdgeChanges addEdge ev) v
  | CloseDetails => on_session (closeDetails (session v)) v
  | KeyDown page event => keydown encodeURIComponent page event v
  | SaveClick => handleSave v v
  | ExportClick page => handleExport encodeURIComponent page v
  | SaveAsImageClick page => handleSaveAsImage page v
  | ImageTimer first second iso => imageTimer first second iso v
  | ZoomInClick page => handleZoomIn page v
  | ZoomOutClick page => handleZoomOut page v
  | ModalOpenChange open => setIsModalOpen open v
  | ColumnModalOpenChange open => setIsColumnModalOpen open v
  | ShortcutHelpOpenChange open => setIsShortcutHelpOpen open v
  end.

Definition perform (acts : list Action) (v : Flow) : Flow :=
  fold_left (fun st a => act a st) acts v.

End Component.

(** The actions whose handlers call [setSelectedNode] or [setSelectedEdge]:
    the three clicks, [closeDetails], and the Delete and Backspace keys. *)
Definition sets_selection (a : Action) : bool :=
  match a with
  | Canvas ev => is_click ev
  | CloseDetails => true
  | KeyDown _ event =>
      String.eqb (key event) "Delete" || String.eqb (key event) "Backspace"
  | _ => false
  end.

(** ** More sample data *)

Definition startFlow (s : Session) : Flow := mkFlow s false false false [].

Definition canvasPage : Page :=
  mkPage "BODY" true true true (Some "{}"%string).

(** Two mutations made: two entries to undo. *)
Definition session_two : Session :=
  ref_run [DeleteNode "n1"; CreateNode taskA 7] session0.

Definition typingPage : Page := mkPage "INPUT" true true true None.

(** Stands for the browser's [encodeURIComponent] in the concrete runs. *)
Definition ref_encode (text : string) : string := text.

Definition ctrl (k : string) : KeyboardEvent := mkKey true false false k.

Definition plain (k : string) : KeyboardEvent := mkKey false false false k.

Definition taskZ : NodeInit :=
  mkNodeInit (Some "customNode"%string) (taskData "Z" "task").

Definition taskB : NodeInit :=
  mkNodeInit (Some "customNode"%string) (taskData "B" "task").

(** Columns [A] and [B]. *)
Definition session_AB : Session :=
  ref_dispatch (AddColumn columnB) session0.

Definition session_selected : Session :=
  ref_dispatch (NodeClick (sampleNode "n1" "A" 10 100)) session0.

(** * Properties *)

(** ** Deep copies keep the contents *)

Lemma copy_attributes (l : list (string * string)) :
  map (fun kv => (fst kv, snd kv)) l = l.
Proof.
  induction l as [| [k v] l IH]; simpl; [reflexivity | now rewrite IH].
Qed.

Lemma copy_node_same (n : Node) : copy_node n = n.
Proof.
  destruct n as [i t [px py] [l c h co at_] dr bg].
  unfold copy_node, copy_position, copy_data; simpl.
  now rewrite copy_attributes.
Qed.

Lemma copy_edge_same (e : Edge) : copy_edge e = e.
Proof.
  destruct e as [i s t sh th an [[w c] |] lb [[mt mw mh mc] |]]; reflexivity.
Qed.

Lemma map_same {A : Type} (f : A -> A) (l : list A) :
  (forall a, f a = a) -> map f l = l.
Proof.
  intros Hf; induction l as [| a l IH]; simpl; [reflexivity |].
  now rewrite Hf, IH.
Qed.

Lemma deepCopy_entry (r : Session) :
  deepCopy r = mkEntry (nodes r) (edges r).
Proof.
  unfold deepCopy.
  now rewrite (map_same copy_node _ copy_node_same),
              (map_same copy_edge _ copy_edge_same).
Qed.

(** ** The two stacks *)

Lemma top_of_push {A : Type} (l : list A) (a : A) :
  nth_error (l ++ [a]) (List.length (l ++ [a]) - 1) = Some a.
Proof.
  rewrite length_app; simpl.
  replace (List.length l + 1 - 1)%nat with (List.length l) by lia.
  rewrite nth_error_app2 by lia.
  now rewrite Nat.sub_diag.
Qed.

Lemma pushed_not_empty {A : Type} (l : list A) (a : A) :
  (List.length (l ++ [a]) =? 0)%nat = false.
Proof.
  rewrite length_app; simpl. apply Nat.eqb_neq. lia.
Qed.

Lemma saveCurrentState_eq (r s : Session) :
  saveCurrentState r s =
  mkSession (nodes s) (edges s) (selectedNode s) (selectedEdge s)
            (availableColumns s)
            (undoStack s ++ [mkEntry (nodes r) (edges r)]) [] (toasts s).
Proof.
  unfold saveCurrentState, setRedoStack, setUndoStack; simpl.
  now rewrite deepCopy_entry.
Qed.

Section Properties.

Variable applyNodeChanges : list NodeChange -> list Node -> list Node.
Variable applyEdgeChanges : list EdgeChange -> list Edge -> list Edge.
Variable addEdge : EdgeParams -> list Edge -> list Edge.

Local Abbreviation step := (dispatch applyNodeChanges applyEdgeChanges addEdge).
Local Abbreviation steps := (run applyNodeChanges applyEdgeChanges addEdge).

Lemma steps_cons (ev : Event) (evs : list Event) (s : Session) :
  steps (ev :: evs) s = steps evs (step ev s).
Proof. reflexivity. Qed.

Lemma steps_app (evs1 evs2 : list Event) (s : Session) :
  steps (evs1 ++ evs2) s = steps evs2 (steps evs1 s).
Proof. unfold run. apply fold_left_app. Qed.

(** Every structural mutation pushes the state it starts from and empties
    the redo stack. *)
Lemma structural_history (ev : Event) (s : Session) :
  structural ev = true ->
  undoStack (step ev s) = undoStack s ++ [mkEntry (nodes s) (edges s)]
  /\ redoStack (step ev s) = [].
Proof.
  destruct ev; intros Hev; try discriminate Hev;
    unfold dispatch, handler, onConnect, handleCreateNode, addColumn,
           updateNode, deleteNode; cbv zeta;
    rewrite saveCurrentState_eq; simpl; split; reflexivity.
Qed.

Lemma undo_pops (s : Session) (u : list HistoryEntry) (e : HistoryEntry) :
  undoStack s = u ++ [e] ->
  step Undo s =
  mkSession (entry_nodes e) (entry_edges e) (selectedNode s) (selectedEdge s)
            (availableColumns s) u
            (redoStack s ++ [mkEntry (nodes s) (edges s)])
            (toasts s ++ [(toast_info, "Undo berhasil"%string)]).
Proof.
  intros Hu. unfold dispatch, handler, handleUndo.
  rewrite Hu, pushed_not_empty, top_of_push, deepCopy_entry.
  unfold toast, setEdges, setNodes, setUndoStack, setRedoStack; simpl.
  now rewrite Hu, removelast_last.
Qed.

Lemma redo_pops (s : Session) (u : list HistoryEntry) (e : HistoryEntry) :
  redoStack s = u ++ [e] ->
  step Redo s =
  mkSession (entry_nodes e) (entry_edges e) (selectedNode s) (selectedEdge s)
            (availableColumns s)
            (undoStack s ++ [mkEntry (nodes s) (edges s)]) u
            (toasts s ++ [(toast_info, "Redo berhasil"%string)]).
Proof.
  intros Hu. unfold dispatch, handler, handleRedo.
  rewrite Hu, pushed_not_empty, top_of_push, deepCopy_entry.
  unfold toast, setEdges, setNodes, setUndoStack, setRedoStack; simpl.
  now rewrite Hu, removelast_last.
Qed.

Lemma redo_on_empty (s : Session) : redoStack s = [] -> step Redo s = s.
Proof.
  intros Hr. unfold dispatch, handler, handleRedo. now rewrite Hr.
Qed.

Lemma undo_on_empty (s : Session) : undoStack s = [] -> step Undo s = s.
Proof.
  intros Hr. unfold dispatch, handler, handleUndo. now rewrite Hr.
Qed.

(** C1. For every session and every structural mutation (node add, node
    delete, node data update, edge connect, and column add as well), undo
    right after the mutation gives back the nodes and edges the mutation
    started from, and redo right after that undo gives back the nodes and
    edges the mutation produced.  The undo stack follows: it is back to its
    value before the mutation after the undo, and to its value after the
    mutation after the redo. *)
Theorem undo_then_redo_after_mutation (ev : Event) (s : Session) :
  structural ev = true ->
  let s1 := step ev s in
  let s2 := step Undo s1 in
  let s3 := step Redo s2 in
  (nodes s2 = nodes s /\ edges s2 = edges s /\ undoStack s2 = undoStack s)
  /\ (nodes s3 = nodes s1 /\ edges s3 = edges s1
      /\ undoStack s3 = undoStack s1 /\ redoStack s3 = []).
Proof.
  intros Hev s1 s2 s3.
  destruct (structural_history ev s Hev) as [Hu Hr]; fold s1 in Hu, Hr.
  assert (E2 : s2 = _) by (exact (undo_pops s1 _ _ Hu)).
  assert (Hr2 : redoStack s2 = [] ++ [mkEntry (nodes s1) (edges s1)])
    by (rewrite E2; simpl; now rewrite Hr).
  assert (E3 : s3 = _) by (exact (redo_pops s2 _ _ Hr2)).
  split.
  - rewrite E2; simpl; repeat split; reflexivity.
  - rewrite E3; simpl. repeat split; try reflexivity.
    rewrite E2; simpl. exact (eq_sym Hu).
Qed.

(** An event other than undo leaves an empty redo stack empty. *)
Lemma redo_stays_empty (ev : Event) (s : Session) :
  is_undo ev = false -> redoStack s = [] -> redoStack (step ev s) = [].
Proof.
  intros Hev Hr.
  destruct ev; simpl in Hev; try discriminate;
    unfold dispatch, handler, onNodesChange, onEdgesChange, onConnect,
           onNodeClick, onEdgeClick, onPaneClick, onNodeDragStop,
           handleCreateNode, addColumn, updateNode, deleteNode; cbv zeta;
    try (rewrite saveCurrentState_eq; reflexivity);
    try (simpl; exact Hr).
  - destruct (0 <? _)%nat; [rewrite saveCurrentState_eq |]; simpl; auto.
  - destruct (0 <? _)%nat; [rewrite saveCurrentState_eq |]; simpl; auto.
  - unfold handleRedo. rewrite Hr. exact Hr.
Qed.

Lemma redo_stays_empty_run (evs : list Event) (s : Session) :
  forallb (fun ev => negb (is_undo ev)) evs = true ->
  redoStack s = [] -> redoStack (steps evs s) = [].
Proof.
  revert s; induction evs as [| ev evs IH]; intros s Hevs Hr; [exact Hr |].
  simpl in Hevs. apply andb_true_iff in Hevs as [Hev Hevs].
  rewrite steps_cons. apply IH; [exact Hevs |].
  apply redo_stays_empty; [| exact Hr].
  now apply negb_true_iff.
Qed.

(** C2. A structural mutation leaves the redo stack empty, whatever it held
    (in particular when it was not empty), so that redo right after it changes
    nothing; and the redo stack stays empty, redo staying without effect,
    through any further events as long as none of them is an undo. *)
Theorem mutation_clears_redo (ev : Event) (s : Session) :
  structural ev = true ->
  redoStack (step ev s) = []
  /\ step Redo (step ev s) = step ev s
  /\ forall evs,
       forallb (fun e => negb (is_undo e)) evs = true ->
       redoStack (steps evs (step ev s)) = []
       /\ step Redo (steps evs (step ev s)) = steps evs (step ev s).
Proof.
  intros Hev.
  destruct (structural_history ev s Hev) as [_ Hr].
  split; [exact Hr |].
  split; [now apply redo_on_empty |].
  intros evs Hevs.
  assert (H : redoStack (steps evs (step ev s)) = [])
    by (now apply redo_stays_empty_run).
  split; [exact H | now apply redo_on_empty].
Qed.

(** ** Deleting a node *)

Lemma filter_same {A : Type} (p : A -> bool) (l : list A) :
  (forall a, In a l -> p a = true) -> filter p l = l.
Proof.
  induction l as [| a l IH]; intros H; simpl; [reflexivity |].
  rewrite (H a (or_introl eq_refl)), IH; [reflexivity |].
  intros b Hb; apply H; now right.
Qed.

Lemma filter_twice {A : Type} (p : A -> bool) (l : list A) :
  filter p (filter p l) = filter p l.
Proof.
  apply filter_same. intros a Ha. now apply filter_In in Ha.
Qed.

Lemma deleteNode_nodes (nodeId : string) (s : Session) :
  nodes (step (DeleteNode nodeId) s) =
  filter (fun node => negb (String.eqb (node_id node) nodeId)) (nodes s).
Proof. reflexivity. Qed.

Lemma deleteNode_edges (nodeId : string) (s : Session) :
  edges (step (DeleteNode nodeId) s) =
  filter (fun edge => negb (String.eqb (source edge) nodeId)
                      && negb (String.eqb (target edge) nodeId)) (edges s).
Proof. reflexivity. Qed.

Lemma differs_iff (a b : string) : negb (String.eqb a b) = true <-> a <> b.
Proof.
  rewrite negb_true_iff. split.
  - intros H. now apply String.eqb_neq.
  - intros H. now apply String.eqb_neq.
Qed.

Lemma not_incident_iff (e : Edge) (nodeId : string) :
  negb (String.eqb (source e) nodeId) && negb (String.eqb (target e) nodeId)
  = true <-> source e <> nodeId /\ target e <> nodeId.
Proof. now rewrite andb_true_iff, !differs_iff. Qed.

Lemma absent_keeps_nodes (nodeId : string) (s : Session) :
  ~ has_node nodeId s ->
  filter (fun node => negb (String.eqb (node_id node) nodeId)) (nodes s)
  = nodes s.
Proof.
  intros Habs. apply filter_same. intros n Hn. apply differs_iff.
  intros E. apply Habs. now exists n.
Qed.

Lemma absent_keeps_edges (nodeId : string) (s : Session) :
  ~ has_node nodeId s -> edges_closed s ->
  filter (fun edge => negb (String.eqb (source edge) nodeId)
                      && negb (String.eqb (target edge) nodeId)) (edges s)
  = edges s.
Proof.
  intros Habs Hcl. apply filter_same. intros e He. apply not_incident_iff.
  destruct (Hcl e He) as [Hs Ht].
  split; intros E; apply Habs; [now rewrite <- E | now rewrite <- E].
Qed.

(** C3, as the component has it.  [deleteNode(id)] removes, in one step,
    every node whose id is [id] and every edge whose source or target is
    [id], and nothing else.  When no node has that id the nodes are left as
    they were; the edges are left as they were when none of them has [id] as
    its source or target, which is so in particular when every edge joins
    existing nodes; an edge left dangling on [id] is pruned all the same.
    Deleting the same id a second time changes neither nodes nor edges. *)
Theorem deleteNode_prunes_and_is_idempotent (nodeId : string) (s : Session) :
  let s1 := step (DeleteNode nodeId) s in
  let s2 := step (DeleteNode nodeId) s1 in
  (forall n, In n (nodes s1) <-> In n (nodes s) /\ node_id n <> nodeId)
  /\ (forall e, In e (edges s1) <->
                In e (edges s) /\ source e <> nodeId /\ target e <> nodeId)
  /\ (~ has_node nodeId s -> nodes s1 = nodes s)
  /\ ((forall e, In e (edges s) -> source e <> nodeId /\ target e <> nodeId) ->
      edges s1 = edges s)
  /\ (~ has_node nodeId s -> edges_closed s ->
      nodes s1 = nodes s /\ edges s1 = edges s)
  /\ (nodes s2 = nodes s1 /\ edges s2 = edges s1).
Proof.
  intros s1 s2. unfold s2, s1.
  rewrite !deleteNode_nodes, !deleteNode_edges.
  split; [| split; [| split; [| split; [| split; [| split]]]]].
  - intros n. rewrite filter_In, differs_iff. reflexivity.
  - intros e. rewrite filter_In, not_incident_iff. reflexivity.
  - apply absent_keeps_nodes.
  - intros Hfree. apply filter_same. intros e He.
    apply not_incident_iff. now apply Hfree.
  - intros Habs Hcl. split.
    + now apply absent_keeps_nodes.
    + now apply absent_keeps_edges.
  - apply filter_twice.
  - apply filter_twice.
Qed.

(** ** Replacing the data of a node *)

Lemma updateNode_nodes (nodeId : string) (d : NodeData) (s : Session) :
  nodes (step (UpdateNode nodeId d) s) =
  map (fun node => if String.eqb (node_id node) nodeId
                   then with_data node d else node) (nodes s).
Proof. reflexivity. Qed.

Lemma updateNode_absent (nodeId : string) (d : NodeData) (s : Session) :
  ~ has_node nodeId s -> nodes (step (UpdateNode nodeId d) s) = nodes s.
Proof.
  intros Habs. rewrite updateNode_nodes.
  assert (H : forall l, (forall n, In n l -> node_id n <> nodeId) ->
                        map (fun node => if String.eqb (node_id node) nodeId
                                         then with_data node d else node) l
                        = l).
  { induction l as [| n l IH]; intros Hl; simpl; [reflexivity |].
    destruct (String.eqb_spec (node_id n) nodeId) as [E | _].
    - exfalso. apply (Hl n); [now left | exact E].
    - rewrite IH; [reflexivity |]. intros m Hm. apply Hl. now right. }
  apply H. intros n Hn E. apply Habs. now exists n.
Qed.

(** C6, as the component has it.  [updateNode(id, newData)] never fails and
    reports nothing.  Every node whose id is [id] gets [newData] as its whole
    data payload, its id, position, type and the rest of its fields being
    kept; every other node, the order of the nodes and the edges are
    unchanged.  When no node has the id, the nodes are left as they were. *)
Theorem updateNode_replaces_data (nodeId : string) (d : NodeData)
  (s : Session) :
  let s1 := step (UpdateNode nodeId d) s in
  outcome applyNodeChanges applyEdgeChanges addEdge (UpdateNode nodeId d) s
  = Returned s1
  /\ toasts s1 = toasts s
  /\ edges s1 = edges s
  /\ List.length (nodes s1) = List.length (nodes s)
  /\ (forall k n, nth_error (nodes s) k = Some n ->
        exists n1, nth_error (nodes s1) k = Some n1
          /\ node_id n1 = node_id n /\ position n1 = position n
          /\ node_type n1 = node_type n /\ draggable n1 = draggable n
          /\ backgroundColor n1 = backgroundColor n
          /\ (node_id n = nodeId -> data n1 = d)
          /\ (node_id n <> nodeId -> n1 = n))
  /\ (~ has_node nodeId s -> nodes s1 = nodes s).
Proof.
  intros s1. unfold s1.
  split; [reflexivity |]. split; [reflexivity |]. split; [reflexivity |].
  split; [rewrite updateNode_nodes; apply length_map |].
  split; [| apply updateNode_absent].
  intros k n Hk. rewrite updateNode_nodes.
  rewrite nth_error_map, Hk; simpl.
  eexists; split; [reflexivity |].
  destruct (String.eqb_spec (node_id n) nodeId) as [E | NE]; simpl;
    repeat split; try reflexivity; intros H; try reflexivity; contradiction.
Qed.

(** C9. Every call of [deleteNode(id)] and of [updateNode(id, data)] pushes
    exactly one entry, holding the nodes and edges the call started from, onto
    the undo stack, and leaves the redo stack empty.  This is so also when no
    node has the id, in which case [updateNode] leaves nodes and edges as they
    were, and so does [deleteNode] in a model whose edges join existing
    nodes. *)
Theorem noop_delete_and_update_touch_history (nodeId : string) (d : NodeData)
  (s : Session) :
  let sd := step (DeleteNode nodeId) s in
  let su := step (UpdateNode nodeId d) s in
  (undoStack sd = undoStack s ++ [mkEntry (nodes s) (edges s)]
   /\ List.length (undoStack sd) = S (List.length (undoStack s))
   /\ redoStack sd = [])
  /\ (undoStack su = undoStack s ++ [mkEntry (nodes s) (edges s)]
      /\ List.length (undoStack su) = S (List.length (undoStack s))
      /\ redoStack su = [])
  /\ (~ has_node nodeId s -> nodes su = nodes s /\ edges su = edges s)
  /\ (~ has_node nodeId s -> edges_closed s ->
      nodes sd = nodes s /\ edges sd = edges s).
Proof.
  intros sd su.
  destruct (structural_history (DeleteNode nodeId) s eq_refl) as [Hd1 Hd2].
  destruct (structural_history (UpdateNode nodeId d) s eq_refl) as [Hu1 Hu2].
  fold sd in Hd1, Hd2. fold su in Hu1, Hu2.
  repeat split; try assumption.
  - rewrite Hd1, length_app; simpl; lia.
  - rewrite Hu1, length_app; simpl; lia.
  - now apply updateNode_absent.
  - unfold sd. rewrite deleteNode_nodes. now apply absent_keeps_nodes.
  - unfold sd. rewrite deleteNode_edges. now apply absent_keeps_edges.
Qed.

(** ** Adding a column *)

(** C4, as the component has it.  [addColumn(column)] never fails: it
    appends the column to the column sequence and appends exactly one node to
    the nodes, the header of the column, whose id is [header-<columnId>];
    the number of header nodes grows by one.  No test for a column of the
    same id is made, so this is what happens for such a column too. *)
Theorem addColumn_appends_header (columnData : Column) (s : Session) :
  let s1 := step (AddColumn columnData) s in
  outcome applyNodeChanges applyEdgeChanges addEdge (AddColumn columnData) s
  = Returned s1
  /\ availableColumns s1 = availableColumns s ++ [columnData]
  /\ (exists h, nodes s1 = nodes s ++ [h]
        /\ node_id h = String.append "header-" (column_id columnData)
        /\ isHeader (data h) = true
        /\ column (data h) = Some (column_id columnData)
        /\ label (data h) = title columnData
        /\ position h =
             mkXY (Z.of_nat (List.length (availableColumns s)) * (200 + 80)
                   + (200 - 180) / 2) 10)
  /\ List.length (filter (fun n => isHeader (data n)) (nodes s1))
     = S (List.length (filter (fun n => isHeader (data n)) (nodes s))).
Proof.
  intros s1. unfold s1.
  split; [reflexivity |]. split; [reflexivity |]. split.
  - exists (headerNode s columnData). repeat split; reflexivity.
  - change (nodes (step (AddColumn columnData) s))
      with (nodes s ++ [headerNode s columnData]).
    rewrite filter_app, length_app; simpl. lia.
Qed.

(** ** Placing a new node *)

Lemma findIndex_first {A : Type} (p : A -> bool) (l : list A) :
  forall (i : nat) (a : A),
    nth_error l i = Some a -> p a = true ->
    (forall j b, (j < i)%nat -> nth_error l j = Some b -> p b = false) ->
    findIndex p l = Z.of_nat i.
Proof.
  induction l as [| a0 l IH]; intros i a Hi Ha Hbefore.
  - destruct i; discriminate.
  - destruct i as [| i]; simpl in Hi.
    + injection Hi as ->. simpl. now rewrite Ha.
    + simpl. rewrite (Hbefore 0%nat a0 (Nat.lt_0_succ i) eq_refl).
      rewrite (IH i a Hi Ha).
      * destruct (Z.of_nat i) eqn:E; lia.
      * intros j b Hj Hb. apply (Hbefore (S j) b); [lia | exact Hb].
Qed.

Lemma fold_max_spec (ys : list Z) :
  forall y0 : Z,
    In (fold_left Z.max ys y0) (y0 :: ys)
    /\ forall y, In y (y0 :: ys) -> (y <= fold_left Z.max ys y0)%Z.
Proof.
  induction ys as [| y1 ys IH]; intros y0; simpl.
  - split; [now left |]. intros y [<- | []]. lia.
  - destruct (IH (Z.max y0 y1)) as [Hin Hle]. split.
    + destruct Hin as [E | Hin].
      * destruct (Z.max_spec y0 y1) as [[_ M] | [_ M]].
        -- right; left. rewrite <- E. lia.
        -- left. rewrite <- E. lia.
      * right; now right.
    + intros y Hy.
      assert (Hm : (Z.max y0 y1 <= fold_left Z.max ys (Z.max y0 y1))%Z)
        by (apply Hle; now left).
      destruct Hy as [<- | [<- | Hy]]; [lia | lia |].
      apply Hle. now right.
Qed.

Lemma same_column_iff (C : string) (n : Node) :
  option_string_eqb (column (data n)) (Some C) && negb (isHeader (data n))
  = true <-> in_column C n.
Proof.
  unfold in_column. rewrite andb_true_iff, negb_true_iff.
  destruct (column (data n)) as [c |]; simpl.
  - rewrite String.eqb_eq. split; intros [H1 H2]; split; congruence.
  - split; intros [H1 H2]; discriminate.
Qed.

Lemma newNode_x (r : Session) (nodeData : NodeInit) (now : N) (C : string)
  (i : nat) :
  column (init_data nodeData) = Some C ->
  column_index (availableColumns r) C i ->
  pos_x (position (newNode r nodeData now))
  = (Z.of_nat i * (200 + 80) + (200 - 180) / 2)%Z.
Proof.
  intros HC [[col [Hcol Hid]] Hfirst].
  unfold newNode; simpl pos_x. rewrite HC.
  rewrite (findIndex_first _ _ i col Hcol).
  - reflexivity.
  - now apply String.eqb_eq.
  - intros j b Hj Hb. apply String.eqb_neq. now apply (Hfirst j b).
Qed.

Lemma newNode_y (r : Session) (nodeData : NodeInit) (now : N) (C : string) :
  column (init_data nodeData) = Some C ->
  ((forall n, In n (nodes r) -> ~ in_column C n) ->
   pos_y (position (newNode r nodeData now)) = 100%Z)
  /\ ((exists n, In n (nodes r) /\ in_column C n) ->
      exists m, In m (nodes r) /\ in_column C m
        /\ (forall n, In n (nodes r) -> in_column C n ->
                      (pos_y (position n) <= pos_y (position m))%Z)
        /\ pos_y (position (newNode r nodeData now))
           = (pos_y (position m) + 120)%Z).
Proof.
  intros HC. unfold newNode; simpl pos_y. rewrite HC.
  set (existing := filter _ (nodes r)).
  assert (Hex : forall n, In n existing <-> In n (nodes r) /\ in_column C n).
  { intros n. unfold existing. rewrite filter_In, same_column_iff.
    reflexivity. }
  split.
  - intros Hnone. destruct existing as [| n l]; [reflexivity |].
    exfalso. destruct (proj1 (Hex n) (or_introl eq_refl)) as [Hn Hc].
    exact (Hnone n Hn Hc).
  - intros [n [Hn Hc]].
    assert (Hin : In n existing) by (apply Hex; now split).
    destruct (map (fun node => pos_y (position node)) existing)
      as [| y0 ys] eqn:Hys.
    + destruct existing; [contradiction | discriminate].
    + destruct (fold_max_spec ys y0) as [Hmax Hle].
      rewrite <- Hys in Hmax, Hle.
      apply in_map_iff in Hmax as [m [Hm Hmin]].
      exists m. destruct (proj1 (Hex m) Hmin) as [Hm1 Hm2].
      split; [exact Hm1 |]. split; [exact Hm2 |]. split.
      * intros k Hk Hkc. rewrite Hm. apply Hle. apply in_map_iff.
        exists k. split; [reflexivity |]. apply Hex. now split.
      * now rewrite Hm.
Qed.

Lemma createNode_nodes (nodeData : NodeInit) (now : N) (s : Session) :
  nodes (step (CreateNode nodeData now) s)
  = nodes s ++ [newNode s nodeData now].
Proof. reflexivity. Qed.

Lemma newNode_in_column (r : Session) (nodeData : NodeInit) (now : N)
  (C : string) :
  column (init_data nodeData) = Some C ->
  isHeader (init_data nodeData) = false ->
  in_column C (newNode r nodeData now).
Proof. intros HC HH. split; assumption. Qed.


(** ** Which notifications take a snapshot *)

Lemma quiet_node_changes (changes : list NodeChange) :
  (forall c, In c changes ->
             node_change_type c = position_change
             \/ node_change_type c = select_change) ->
  filter (fun change =>
            negb (ChangeType_eqb (node_change_type change) position_change)
            && negb (ChangeType_eqb (node_change_type change) select_change))
         changes = [].
Proof.
  induction changes as [| c cs IH]; intros H; simpl; [reflexivity |].
  destruct (H c (or_introl eq_refl)) as [E | E]; rewrite E; simpl;
    apply IH; intros c' Hc'; apply H; now right.
Qed.

Lemma ChangeType_eqb_eq (a b : ChangeType) :
  ChangeType_eqb a b = true <-> a = b.
Proof. destruct a, b; simpl; split; congruence. Qed.

Lemma all_of_type_In (t : ChangeType) (cs : list NodeChange) :
  all_of_type t cs = true ->
  forall c, In c cs -> node_change_type c = t.
Proof.
  unfold all_of_type. rewrite forallb_forall. intros H c Hc.
  now apply ChangeType_eqb_eq, H.
Qed.

(** A notification made of ['position'] and ['select'] changes goes to the
    reducer without a snapshot. *)
Lemma quiet_onNodesChange (changes : list NodeChange) (s : Session) :
  (forall c, In c changes ->
             node_change_type c = position_change
             \/ node_change_type c = select_change) ->
  step (NodesChange changes) s
  = setNodes (fun nds => applyNodeChanges changes nds) s.
Proof.
  intros H. unfold dispatch, handler, onNodesChange; cbv zeta.
  now rewrite (quiet_node_changes changes H).
Qed.

Lemma quiet_onEdgesChange (changes : list EdgeChange) (s : Session) :
  forallb (fun c => ChangeType_eqb (edge_change_type c) select_change) changes
  = true ->
  step (EdgesChange changes) s
  = setEdges (fun eds => applyEdgeChanges changes eds) s.
Proof.
  intros H. unfold dispatch, handler, onEdgesChange; cbv zeta.
  replace (filter _ changes) with (@nil EdgeChange); [reflexivity |].
  symmetry. induction changes as [| c cs IH]; simpl; [reflexivity |].
  simpl in H. apply andb_true_iff in H as [Hc Hcs].
  rewrite Hc; simpl. now apply IH.
Qed.

Lemma selection_only_step (ev : Event) (s : Session) :
  selection_only ev = true ->
  undoStack (step ev s) = undoStack s /\ redoStack (step ev s) = redoStack s.
Proof.
  destruct ev; intros Hev; try discriminate Hev; simpl in Hev.
  - rewrite quiet_onNodesChange; [split; reflexivity |].
    intros c Hc. right. exact (all_of_type_In _ _ Hev c Hc).
  - rewrite quiet_onEdgesChange by exact Hev. split; reflexivity.
  - split; reflexivity.
  - split; reflexivity.
  - split; reflexivity.
Qed.

(** C7. Through any sequence of selection-only events (a click on a node, on
    an edge or on the empty pane, a node or edge notification carrying
    ['select'] changes only) nothing is pushed onto the undo stack and the
    redo stack is not cleared: both stacks end as they started. *)
Theorem selection_keeps_history (evs : list Event) (s : Session) :
  forallb selection_only evs = true ->
  undoStack (steps evs s) = undoStack s
  /\ redoStack (steps evs s) = redoStack s.
Proof.
  revert s. induction evs as [| ev evs IH]; intros s Hevs.
  - split; reflexivity.
  - simpl in Hevs. apply andb_true_iff in Hevs as [Hev Hevs].
    rewrite steps_cons.
    destruct (IH (step ev s) Hevs) as [Hu Hr].
    destruct (selection_only_step ev s Hev) as [Hu1 Hr1].
    split; congruence.
Qed.

(** ** A drag gesture *)

Lemma moves_keep_history (moves : list (list NodeChange)) (s : Session) :
  forallb (all_of_type position_change) moves = true ->
  undoStack (steps (map NodesChange moves) s) = undoStack s
  /\ redoStack (steps (map NodesChange moves) s) = redoStack s
  /\ edges (steps (map NodesChange moves) s) = edges s
  /\ nodes (steps (map NodesChange moves) s)
     = fold_left (fun nds cs => applyNodeChanges cs nds) moves (nodes s).
Proof.
  revert s. induction moves as [| cs moves IH]; intros s Hm.
  - repeat split; reflexivity.
  - simpl in Hm. apply andb_true_iff in Hm as [Hcs Hm].
    simpl map. rewrite steps_cons.
    destruct (IH (step (NodesChange cs) s) Hm) as [Hu [Hr [He Hn]]].
    rewrite Hu, Hr, He, Hn.
    rewrite quiet_onNodesChange; [repeat split; reflexivity |].
    intros c Hc. left. exact (all_of_type_In _ _ Hcs c Hc).
Qed.

(** What a whole gesture does to the history: one entry is pushed, at the
    mouse-up, and it holds the nodes as the moves have left them. *)
Lemma drag_gesture_history (mousedown : list NodeChange)
  (moves : list (list NodeChange)) (s : Session) :
  all_of_type select_change mousedown = true ->
  forallb (all_of_type position_change) moves = true ->
  let dragged := steps (drag_moves mousedown moves) s in
  let s1 := steps (drag_gesture mousedown moves) s in
  undoStack dragged = undoStack s
  /\ nodes dragged
     = fold_left (fun nds cs => applyNodeChanges cs nds) (mousedown :: moves)
                 (nodes s)
  /\ edges dragged = edges s
  /\ undoStack s1
     = undoStack s ++ [mkEntry (nodes dragged) (edges dragged)]
  /\ List.length (undoStack s1) = S (List.length (undoStack s))
  /\ redoStack s1 = []
  /\ nodes s1 = nodes dragged.
Proof.
  intros Hdown Hmoves dragged s1.
  assert (Hq : step (NodesChange mousedown) s
               = setNodes (fun nds => applyNodeChanges mousedown nds) s).
  { apply quiet_onNodesChange. intros c Hc. right.
    exact (all_of_type_In _ _ Hdown c Hc). }
  destruct (moves_keep_history moves (step (NodesChange mousedown) s) Hmoves)
    as [Hu [Hr [He Hn]]].
  change (steps (map NodesChange moves) (step (NodesChange mousedown) s))
    with dragged in Hu, Hr, He, Hn.
  rewrite Hq in Hu, He, Hn. simpl in Hu, He, Hn.
  assert (Hs1 : s1 = saveCurrentState dragged dragged).
  { unfold s1, drag_gesture. rewrite steps_app. reflexivity. }
  rewrite Hs1, saveCurrentState_eq; simpl.
  repeat split; try assumption.
  - now rewrite Hu.
  - rewrite length_app, Hu; simpl; lia.
Qed.

(** ** Identifiers of created nodes *)

Lemma decimal_inj (n m : N) : decimal n = decimal m -> n = m.
Proof.
  unfold decimal. intros H.
  apply DecimalN.Unsigned.to_uint_inj.
  assert (E : Some (N.to_uint n) = Some (N.to_uint m))
    by (rewrite <- !NilEmpty.usu; now rewrite H).
  now injection E.
Qed.

Lemma newNode_id (r : Session) (nodeData : NodeInit) (now : N) :
  node_id (newNode r nodeData now) = String.append "node-" (decimal now).
Proof. reflexivity. Qed.

Lemma node_id_of_time_inj (t1 t2 : N) :
  String.append "node-" (decimal t1) = String.append "node-" (decimal t2) ->
  t1 = t2.
Proof.
  simpl. intros H. apply decimal_inj. congruence.
Qed.

Lemma NoDup_snoc {A : Type} (l : list A) (a : A) :
  NoDup l -> ~ In a l -> NoDup (l ++ [a]).
Proof.
  induction l as [| b l IH]; intros Hl Ha; simpl.
  - constructor; [intros [] | constructor].
  - inversion Hl as [| ? ? Hb Hl']; subst. constructor.
    + intros Hin. apply in_app_or in Hin as [Hin | [E | []]].
      * contradiction.
      * apply Ha. now left.
    + apply IH; [exact Hl' |]. intros Hin. apply Ha. now right.
Qed.

Lemma created_ids (nodeData : NodeInit) (now : N) (s : Session) :
  map node_id (nodes (step (CreateNode nodeData now) s))
  = map node_id (nodes s) ++ [String.append "node-" (decimal now)].
Proof. rewrite createNode_nodes, map_app. reflexivity. Qed.

Lemma creations_keep_ids_distinct (creations : list (NodeInit * N)) :
  forall s : Session,
    NoDup (map node_id (nodes s)) ->
    NoDup (map snd creations) ->
    (forall t, In t (map snd creations) ->
               ~ In (String.append "node-" (decimal t))
                    (map node_id (nodes s))) ->
    NoDup (map node_id
             (nodes (steps (map (fun c => CreateNode (fst c) (snd c))
                                creations) s))).
Proof.
  induction creations as [| [d t] cs IH]; intros s Hs Hts Hfresh.
  - exact Hs.
  - change (map (fun c => CreateNode (fst c) (snd c)) ((d, t) :: cs))
      with (CreateNode d t :: map (fun c => CreateNode (fst c) (snd c)) cs).
    rewrite steps_cons. simpl in Hts.
    inversion Hts as [| ? ? Ht Hts']; subst.
    apply IH; [| exact Hts' |].
    + rewrite created_ids. apply NoDup_snoc; [exact Hs |].
      apply Hfresh. now left.
    + intros t' Ht'. rewrite created_ids. intros Hin.
      apply in_app_or in Hin as [Hin | [E | []]].
      * apply (Hfresh t'); [now right | exact Hin].
      * apply node_id_of_time_inj in E. subst t'. contradiction.
Qed.

(** C10.  The id of a created node is [node-<milliseconds>], the decimal
    text of the timestamp of its creation.  Two creations at the same
    timestamp therefore leave two nodes with the same id, whereas nodes
    created at different timestamps get different ids; and node ids stay
    pairwise distinct through any run of creations whose timestamps are
    pairwise distinct (and whose ids are not already taken). *)
Theorem created_ids_follow_timestamps :
  (forall (r : Session) (nodeData : NodeInit) (now : N),
      node_id (newNode r nodeData now) = String.append "node-" (decimal now))
  /\ (forall (s : Session) (d1 d2 : NodeInit) (t : N),
        let s2 := steps [CreateNode d1 t; CreateNode d2 t] s in
        (exists n1 n2, nodes s2 = nodes s ++ [n1; n2]
                       /\ node_id n1 = node_id n2)
        /\ ~ NoDup (map node_id (nodes s2)))
  /\ (forall (r1 r2 : Session) (d1 d2 : NodeInit) (t1 t2 : N),
        t1 <> t2 ->
        node_id (newNode r1 d1 t1) <> node_id (newNode r2 d2 t2))
  /\ (forall (s : Session) (creations : list (NodeInit * N)),
        NoDup (map node_id (nodes s)) ->
        NoDup (map snd creations) ->
        (forall t, In t (map snd creations) ->
                   ~ In (String.append "node-" (decimal t))
                        (map node_id (nodes s))) ->
        NoDup (map node_id
                 (nodes (steps (map (fun c => CreateNode (fst c) (snd c))
                                    creations) s)))).
Proof.
  split; [exact newNode_id |]. split; [| split].
  - intros s d1 d2 t s2.
    assert (E : nodes s2
                = nodes s ++ [newNode s d1 t;
                              newNode (step (CreateNode d1 t) s) d2 t]).
    { unfold s2.
      change (steps [CreateNode d1 t; CreateNode d2 t] s)
        with (step (CreateNode d2 t) (step (CreateNode d1 t) s)).
      rewrite !createNode_nodes, <- app_assoc. reflexivity. }
    split.
    + eexists; eexists. split; [exact E | reflexivity].
    + rewrite E, map_app. intros Hnd. apply NoDup_app_remove_l in Hnd.
      simpl in Hnd. inversion Hnd as [| ? ? Hin _]; subst.
      apply Hin. now left.
  - intros r1 r2 d1 d2 t1 t2 Hne E. rewrite !newNode_id in E.
    apply Hne. now apply node_id_of_time_inj.
  - intros s creations. apply creations_keep_ids_distinct.
Qed.

End Properties.

(** * Concrete sessions

    The results above, and the places where the component parts from the
    specification, on the sample sessions, run with the reference
    reducers. *)

Ltac each_member H :=
  simpl in H;
  repeat match type of H with
         | _ \/ _ => destruct H as [H | H]
         | False => destruct H
         end.

Lemma ghost_absent : ~ has_node "ghost" session0.
Proof.
  intros [n [Hin E]]. each_member Hin; subst n; discriminate E.
Defined.

Lemma session0_edges_closed : edges_closed session0.
Proof.
  intros e He. each_member He; subst e. split.
  - exists (sampleNode "n1" "A" 10 100). split; [simpl; auto | reflexivity].
  - exists (sampleNode "n2" "A" 10 220). split; [simpl; auto | reflexivity].
Defined.

Lemma undo_then_redo_witness :
  let s1 := ref_dispatch (DeleteNode "n1") session0 in
  let s2 := ref_dispatch Undo s1 in
  let s3 := ref_dispatch Redo s2 in
  (nodes s2 = nodes session0 /\ edges s2 = edges session0
   /\ undoStack s2 = undoStack session0)
  /\ (nodes s3 = nodes s1 /\ edges s3 = edges s1
      /\ undoStack s3 = undoStack s1 /\ redoStack s3 = []).
Proof.
  exact (undo_then_redo_after_mutation
           ref_applyNodeChanges ref_applyEdgeChanges ref_addEdge
           (DeleteNode "n1") session0 eq_refl).
Defined.

Lemma mutation_clears_redo_witness :
  redoStack session_after_undo <> []
  /\ redoStack (ref_dispatch (CreateNode taskA 7) session_after_undo) = []
  /\ ref_dispatch Redo (ref_dispatch (CreateNode taskA 7) session_after_undo)
     = ref_dispatch (CreateNode taskA 7) session_after_undo
  /\ redoStack (ref_run [PaneClick; Redo; NodeDragStop]
                  (ref_dispatch (CreateNode taskA 7) session_after_undo))
     = [].
Proof.
  destruct (mutation_clears_redo
              ref_applyNodeChanges ref_applyEdgeChanges ref_addEdge
              (CreateNode taskA 7) session_after_undo eq_refl)
    as [H1 [H2 H3]].
  destruct (H3 [PaneClick; Redo; NodeDragStop] eq_refl) as [H4 _].
  split; [discriminate |]. split; [exact H1 |]. split; [exact H2 | exact H4].
Defined.

Lemma n1_absent_after_removal : ~ has_node "n1" session_dangling.
Proof.
  intros [n [Hin E]]. each_member Hin; subst n; discriminate E.
Defined.

Lemma deleteNode_witness :
  nodes (ref_dispatch (DeleteNode "ghost") session0) = nodes session0
  /\ edges (ref_dispatch (DeleteNode "ghost") session0) = edges session0
  /\ nodes (ref_dispatch (DeleteNode "n1") session_dangling)
     = nodes session_dangling.
Proof.
  destruct (deleteNode_prunes_and_is_idempotent
              ref_applyNodeChanges ref_applyEdgeChanges ref_addEdge
              "ghost" session0) as [_ [_ [Hn [He _]]]].
  destruct (deleteNode_prunes_and_is_idempotent
              ref_applyNodeChanges ref_applyEdgeChanges ref_addEdge
              "n1" session_dangling) as [_ [_ [Hn1 _]]].
  split; [exact (Hn ghost_absent) |]. split.
  - apply He. intros e H. each_member H; subst e. split; discriminate.
  - apply Hn1. exact n1_absent_after_removal.
Defined.

Lemma updateNode_witness :
  nodes (ref_dispatch (UpdateNode "ghost" (taskData "A" "new")) session0)
  = nodes session0
  /\ exists n1,
       nth_error
         (nodes (ref_dispatch (UpdateNode "n1" (taskData "B" "new")) session0))
         1 = Some n1
       /\ node_id n1 = "n1"%string /\ position n1 = mkXY 10 100
       /\ data n1 = taskData "B" "new".
Proof.
  split.
  - destruct (updateNode_replaces_data
                ref_applyNodeChanges ref_applyEdgeChanges ref_addEdge
                "ghost" (taskData "A" "new") session0)
      as [_ [_ [_ [_ [_ H]]]]].
    exact (H ghost_absent).
  - destruct (updateNode_replaces_data
                ref_applyNodeChanges ref_applyEdgeChanges ref_addEdge
                "n1" (taskData "B" "new") session0)
      as [_ [_ [_ [_ [H _]]]]].
    destruct (H 1%nat (sampleNode "n1" "A" 10 100) eq_refl)
      as [n1 [Hk [Hid [Hpos [_ [_ [_ [Hd _]]]]]]]].
    exists n1. split; [exact Hk |]. split; [exact Hid |].
    split; [exact Hpos | exact (Hd eq_refl)].
Defined.

Lemma noop_history_witness :
  List.length (undoStack (ref_dispatch (DeleteNode "ghost") session0)) = 1%nat
  /\ nodes (ref_dispatch (DeleteNode "ghost") session0) = nodes session0
  /\ edges (ref_dispatch (DeleteNode "ghost") session0) = edges session0
  /\ List.length
       (undoStack (ref_dispatch (UpdateNode "ghost" (taskData "A" "new"))
                                session0)) = 1%nat
  /\ nodes (ref_dispatch (UpdateNode "ghost" (taskData "A" "new")) session0)
     = nodes session0.
Proof.
  destruct (noop_delete_and_update_touch_history
              ref_applyNodeChanges ref_applyEdgeChanges ref_addEdge
              "ghost" (taskData "A" "new") session0)
    as [[_ [Hd _]] [[_ [Hu _]] [Hnu Hnd]]].
  destruct (Hnu ghost_absent) as [Hn _].
  destruct (Hnd ghost_absent session0_edges_closed) as [Hn' He'].
  split; [exact Hd |]. split; [exact Hn' |]. split; [exact He' |].
  split; [exact Hu | exact Hn].
Defined.


Lemma columnA_has_no_task :
  forall n, In n (nodes session_columnA) -> ~ in_column "A" n.
Proof.
  intros n Hn [_ Hh]. each_member Hn; subst n; discriminate Hh.
Defined.


Lemma selection_keeps_history_witness :
  undoStack session_after_undo = []
  /\ redoStack session_after_undo <> []
  /\ undoStack
       (ref_run [NodeClick (sampleNode "n1" "A" 10 100); PaneClick;
                 NodesChange [NodeSelectionChange "n1" true];
                 EdgesChange [EdgeSelectionChange "e1" true];
                 EdgeClick (sampleEdge "e1" "n1" "n2")] session_after_undo)
     = undoStack session_after_undo
  /\ redoStack
       (ref_run [NodeClick (sampleNode "n1" "A" 10 100); PaneClick;
                 NodesChange [NodeSelectionChange "n1" true];
                 EdgesChange [EdgeSelectionChange "e1" true];
                 EdgeClick (sampleEdge "e1" "n1" "n2")] session_after_undo)
     = redoStack session_after_undo.
Proof.
  split; [reflexivity |]. split; [discriminate |].
  exact (selection_keeps_history
           ref_applyNodeChanges ref_applyEdgeChanges ref_addEdge
           [NodeClick (sampleNode "n1" "A" 10 100); PaneClick;
            NodesChange [NodeSelectionChange "n1" true];
            EdgesChange [EdgeSelectionChange "e1" true];
            EdgeClick (sampleEdge "e1" "n1" "n2")] session_after_undo
           eq_refl).
Defined.

Lemma session0_ids_distinct : NoDup (map node_id (nodes session0)).
Proof.
  simpl. repeat constructor; simpl; intros H; each_member H; discriminate H.
Defined.

Lemma created_ids_witness :
  node_id (newNode session0 taskA 1700000000123) = "node-1700000000123"%string
  /\ ~ NoDup (map node_id
                (nodes (ref_run [CreateNode taskA 5; CreateNode taskA 5]
                                session0)))
  /\ node_id (newNode session0 taskA 5) <> node_id (newNode session0 taskA 6)
  /\ NoDup (map node_id
              (nodes (ref_run [CreateNode taskA 5; CreateNode taskA 6]
                              session0))).
Proof.
  destruct (created_ids_follow_timestamps
              ref_applyNodeChanges ref_applyEdgeChanges ref_addEdge)
    as [Hid [Hsame [Hdiff Hinv]]].
  split; [exact (Hid session0 taskA 1700000000123%N) |].
  split; [exact (proj2 (Hsame session0 taskA taskA 5%N)) |].
  split.
  - apply Hdiff. discriminate.
  - apply (Hinv session0 [(taskA, 5%N); (taskA, 6%N)]).
    + exact session0_ids_distinct.
    + simpl. repeat constructor; simpl; intros H; each_member H;
        discriminate H.
    + intros t Ht Hin. each_member Ht; subst t; each_member Hin;
        discriminate Hin.
Defined.

(** ** Where the component parts from the specification *)

(** C4, a column whose id is already there.  Column [A] is in [session0];
    [addColumn] given [A] again does not fail with [DuplicateId]: it returns,
    with [A] twice in the column sequence, two nodes called [header-A], an
    entry pushed on the undo stack, and a success notification shown. *)
Lemma addColumn_accepts_duplicate :
  has_column "A" session0
  /\ outcome ref_applyNodeChanges ref_applyEdgeChanges ref_addEdge
             (AddColumn columnA) session0 <> Failed DuplicateId
  /\ availableColumns (ref_dispatch (AddColumn columnA) session0)
     = [columnA; columnA]
  /\ map node_id (nodes (ref_dispatch (AddColumn columnA) session0))
     = ["header-A"; "n1"; "n2"; "header-A"]%string
  /\ List.length (undoStack (ref_dispatch (AddColumn columnA) session0))
     = 1%nat
  /\ toasts (ref_dispatch (AddColumn columnA) session0)
     = [(toast_success, "Kolom Alpha berhasil ditambahkan"%string)]
  /\ ~ addColumn_rejects_duplicates
         (fun c s => outcome ref_applyNodeChanges ref_applyEdgeChanges
                             ref_addEdge (AddColumn c) s).
Proof.
  assert (HA : has_column "A" session0)
    by (exists columnA; split; [simpl; auto | reflexivity]).
  split; [exact HA |]. split; [discriminate |].
  split; [reflexivity |]. split; [reflexivity |]. split; [reflexivity |].
  split; [reflexivity |].
  intros Hclaim. specialize (Hclaim session0 columnA HA). discriminate Hclaim.
Qed.

(** C3, an id no node has but an edge still names.  In [session_dangling]
    the canvas has removed [n1] and the edge [e1], from [n1] to [n2], is
    still there.  [deleteNode] given [n1] is not a no-op: it removes
    [e1]. *)
Lemma deleteNode_prunes_dangling_edge :
  ~ has_node "n1" session_dangling
  /\ edges session_dangling = [sampleEdge "e1" "n1" "n2"]
  /\ nodes (ref_dispatch (DeleteNode "n1") session_dangling)
     = nodes session_dangling
  /\ edges (ref_dispatch (DeleteNode "n1") session_dangling) = []
  /\ ~ removeNode_noop_when_absent
         (fun nodeId s => ref_dispatch (DeleteNode nodeId) s).
Proof.
  assert (Habs : ~ has_node "n1" session_dangling).
  { intros [n [Hin E]]. each_member Hin; subst n; discriminate E. }
  split; [exact Habs |]. split; [reflexivity |]. split; [reflexivity |].
  split; [reflexivity |].
  intros Hclaim. destruct (Hclaim session_dangling "n1"%string Habs) as [_ H].
  discriminate H.
Qed.

(** C6, an id no node has.  No node of [session0] is called [ghost];
    [updateNode] given [ghost] does not fail with [NotFound]: it returns,
    having shown no notification and pushed an entry on the undo stack. *)
Lemma updateNode_accepts_missing_id :
  ~ has_node "ghost" session0
  /\ outcome ref_applyNodeChanges ref_applyEdgeChanges ref_addEdge
             (UpdateNode "ghost" (taskData "A" "new")) session0
     <> Failed NotFound
  /\ toasts (ref_dispatch (UpdateNode "ghost" (taskData "A" "new")) session0)
     = []
  /\ undoStack (ref_dispatch (UpdateNode "ghost" (taskData "A" "new"))
                             session0)
     = [mkEntry (nodes session0) (edges session0)]
  /\ ~ updateNodeData_rejects_missing
         (fun nodeId d s => outcome ref_applyNodeChanges ref_applyEdgeChanges
                                    ref_addEdge (UpdateNode nodeId d) s).
Proof.
  split; [exact ghost_absent |]. split; [discriminate |].
  split; [reflexivity |]. split; [reflexivity |].
  intros Hclaim.
  specialize (Hclaim session0 "ghost"%string (taskData "A" "new") ghost_absent).
  discriminate Hclaim.
Qed.

(** C8, on [sample_drag].  The gesture pushes one entry, at the mouse-up.
    The entry holds the nodes as the drag has left them, [n1] at (70, 80),
    not the nodes the drag started from; undo right after the drag therefore
    leaves every node where it was dropped. *)
Theorem drag_entry_holds_dropped_nodes :
  let s1 := ref_run sample_drag session0 in
  List.length (undoStack s1) = S (List.length (undoStack session0))
  /\ undoStack s1 = [mkEntry (nodes s1) (edges s1)]
  /\ map position (nodes s1) = [mkXY 10 10; mkXY 70 80; mkXY 10 220]
  /\ map position (nodes session0) = [mkXY 10 10; mkXY 10 100; mkXY 10 220]
  /\ undoStack s1 <> [mkEntry (nodes session0) (edges session0)]
  /\ nodes (ref_dispatch Undo s1) = nodes s1.
Proof.
  repeat split; try reflexivity.
  intros H. vm_compute in H. discriminate H.
Qed.

(** * Further properties of the component *)

Section Editing.

Variable applyNodeChanges : list NodeChange -> list Node -> list Node.
Variable applyEdgeChanges : list EdgeChange -> list Edge -> list Edge.
Variable addEdge : EdgeParams -> list Edge -> list Edge.

Local Abbreviation step := (dispatch applyNodeChanges applyEdgeChanges addEdge).
Local Abbreviation steps := (run applyNodeChanges applyEdgeChanges addEdge).
Local Abbreviation undo_top :=
  (undo_pops applyNodeChanges applyEdgeChanges addEdge).
Local Abbreviation redo_top :=
  (redo_pops applyNodeChanges applyEdgeChanges addEdge).

(** ** Undo and redo as inverse walks *)

Lemma steps_snoc (evs : list Event) (ev : Event) (s : Session) :
  steps (evs ++ [ev]) s = step ev (steps evs s).
Proof. unfold run. now rewrite fold_left_app. Qed.

Lemma repeat_snoc {A : Type} (a : A) (k : nat) :
  repeat a (S k) = repeat a k ++ [a].
Proof.
  induction k as [| k IH]; [reflexivity |].
  simpl in *. f_equal. exact IH.
Qed.

Lemma entry_eta (e : HistoryEntry) :
  mkEntry (entry_nodes e) (entry_edges e) = e.
Proof. now destruct e. Qed.

(** [k] undos followed by [k] redos, when the undo stack holds at least [k]
    entries, bring back the nodes, the edges and both stacks; in between,
    [k] entries have moved from the undo stack to the redo stack. *)
Theorem undos_then_redos_round_trip (k : nat) :
  forall s : Session,
    (k <= List.length (undoStack s))%nat ->
    let s1 := steps (repeat Undo k) s in
    let s2 := steps (repeat Redo k) s1 in
    (List.length (undoStack s1) + k = List.length (undoStack s)
     /\ List.length (redoStack s1) = List.length (redoStack s) + k)%nat
    /\ nodes s2 = nodes s /\ edges s2 = edges s
    /\ undoStack s2 = undoStack s /\ redoStack s2 = redoStack s.
Proof.
  induction k as [| k IH]; intros s Hk; cbv zeta.
  - simpl. repeat split; lia.
  - destruct (undoStack s) as [| e0 u0] eqn:Hu0; [simpl in Hk; lia |].
    destruct (@exists_last _ (e0 :: u0)) as [u [e Hue]]; [discriminate |].
    rewrite <- Hu0 in Hk. rewrite Hue in Hu0.
    change (repeat Undo (S k)) with (Undo :: repeat Undo k).
    rewrite steps_cons, repeat_snoc, steps_snoc.
    pose proof (undo_top s u e Hu0) as E1.
    remember (step Undo s) as s' eqn:Hs'. clear Hs'.
    assert (F1 : undoStack s' = u) by (rewrite E1; reflexivity).
    assert (F2 : redoStack s'
                 = redoStack s ++ [mkEntry (nodes s) (edges s)])
      by (rewrite E1; reflexivity).
    assert (F3 : nodes s' = entry_nodes e) by (rewrite E1; reflexivity).
    assert (F4 : edges s' = entry_edges e) by (rewrite E1; reflexivity).
    clear E1.
    assert (Hk' : (k <= List.length (undoStack s'))%nat).
    { rewrite F1. rewrite Hu0, length_app in Hk. simpl in Hk. lia. }
    destruct (IH s' Hk') as [[L1 L2] [Hn [He [Hu Hr]]]].
    remember (steps (repeat Redo k) (steps (repeat Undo k) s')) as t eqn:Ht.
    clear Ht.
    assert (Hrt : redoStack t
                  = redoStack s ++ [mkEntry (nodes s) (edges s)])
      by (rewrite Hr; exact F2).
    rewrite (redo_top t _ _ Hrt); simpl.
    rewrite Hu, Hn, He, F1, F3, F4, entry_eta.
    split.
    + rewrite F1 in L1. rewrite F2 in L2.
      apply (f_equal (@List.length _)) in Hue.
      rewrite ?length_app in *. simpl in *. lia.
    + repeat split; congruence.
Qed.

(** The other way round: [k] redos followed by [k] undos, when the redo
    stack holds at least [k] entries. *)
Theorem redos_then_undos_round_trip (k : nat) :
  forall s : Session,
    (k <= List.length (redoStack s))%nat ->
    let s1 := steps (repeat Redo k) s in
    let s2 := steps (repeat Undo k) s1 in
    (List.length (redoStack s1) + k = List.length (redoStack s)
     /\ List.length (undoStack s1) = List.length (undoStack s) + k)%nat
    /\ nodes s2 = nodes s /\ edges s2 = edges s
    /\ undoStack s2 = undoStack s /\ redoStack s2 = redoStack s.
Proof.
  induction k as [| k IH]; intros s Hk; cbv zeta.
  - simpl. repeat split; lia.
  - destruct (redoStack s) as [| e0 u0] eqn:Hu0; [simpl in Hk; lia |].
    destruct (@exists_last _ (e0 :: u0)) as [u [e Hue]]; [discriminate |].
    rewrite <- Hu0 in Hk. rewrite Hue in Hu0.
    change (repeat Redo (S k)) with (Redo :: repeat Redo k).
    rewrite steps_cons, repeat_snoc, steps_snoc.
    pose proof (redo_top s u e Hu0) as E1.
    remember (step Redo s) as s' eqn:Hs'. clear Hs'.
    assert (F1 : redoStack s' = u) by (rewrite E1; reflexivity).
    assert (F2 : undoStack s'
                 = undoStack s ++ [mkEntry (nodes s) (edges s)])
      by (rewrite E1; reflexivity).
    assert (F3 : nodes s' = entry_nodes e) by (rewrite E1; reflexivity).
    assert (F4 : edges s' = entry_edges e) by (rewrite E1; reflexivity).
    clear E1.
    assert (Hk' : (k <= List.length (redoStack s'))%nat).
    { rewrite F1. rewrite Hu0, length_app in Hk. simpl in Hk. lia. }
    destruct (IH s' Hk') as [[L1 L2] [Hn [He [Hu Hr]]]].
    remember (steps (repeat Undo k) (steps (repeat Redo k) s')) as t eqn:Ht.
    clear Ht.
    assert (Hrt : undoStack t
                  = undoStack s ++ [mkEntry (nodes s) (edges s)])
      by (rewrite Hu; exact F2).
    rewrite (undo_top t _ _ Hrt); simpl.
    rewrite Hr, Hn, He, F1, F3, F4, entry_eta.
    split.
    + rewrite F1 in L1. rewrite F2 in L2.
      apply (f_equal (@List.length _)) in Hue.
      rewrite ?length_app in *. simpl in *. lia.
    + repeat split; congruence.
Qed.

(** ** Columns are outside the history *)

Lemma step_columns (ev : Event) (s : Session) :
  availableColumns (step ev s)
  = availableColumns s ++ match ev with AddColumn c => [c] | _ => [] end.
Proof.
  destruct ev; rewrite ?app_nil_r;
    unfold dispatch, handler, onNodesChange, onEdgesChange, handleUndo,
           handleRedo; cbv zeta; try reflexivity.
  - destruct (0 <? _)%nat; reflexivity.
  - destruct (0 <? _)%nat; reflexivity.
  - destruct (_ =? 0)%nat; [reflexivity |].
    destruct (nth_error _ _); reflexivity.
  - destruct (_ =? 0)%nat; [reflexivity |].
    destruct (nth_error _ _); reflexivity.
Qed.

(** Through any sequence of events the column sequence only grows, by the
    columns added, in order: no event removes or reorders a column, and undo
    does not take back a column that was added. *)
Theorem columns_are_append_only (evs : list Event) :
  forall s : Session,
    availableColumns (steps evs s) = availableColumns s ++ added_columns evs.
Proof.
  induction evs as [| ev evs IH]; intros s.
  - simpl. now rewrite app_nil_r.
  - rewrite steps_cons, IH, step_columns, <- app_assoc. reflexivity.
Qed.

(** ** Notifications that take a snapshot *)

Lemma loud_filter_not_empty {A : Type} (p : A -> bool) (l : list A) (a : A) :
  In a l -> p a = true -> (0 <? List.length (filter p l))%nat = true.
Proof.
  intros Hin Hp. apply Nat.ltb_lt.
  assert (H : In a (filter p l)) by (apply filter_In; now split).
  destruct (filter p l); [contradiction | simpl; lia].
Qed.

Lemma ChangeType_neq (a b : ChangeType) :
  a <> b -> negb (ChangeType_eqb a b) = true.
Proof. destruct a, b; simpl; congruence. Qed.

(** A node notification that carries at least one change of another type
    than ['position'] and ['select'] (a removal, an addition, a measurement)
    pushes one entry, whatever the number of changes, holding the nodes and
    edges from before, and empties the redo stack; undo right after it gives
    those nodes and edges back.  An edge notification with a change other
    than ['select'] does the same. *)
Theorem change_notifications_are_undoable (s : Session) :
  (forall changes c,
      In c changes ->
      node_change_type c <> position_change ->
      node_change_type c <> select_change ->
      let s1 := step (NodesChange changes) s in
      undoStack s1 = undoStack s ++ [mkEntry (nodes s) (edges s)]
      /\ redoStack s1 = []
      /\ nodes s1 = applyNodeChanges changes (nodes s)
      /\ nodes (step Undo s1) = nodes s /\ edges (step Undo s1) = edges s)
  /\ (forall changes c,
        In c changes ->
        edge_change_type c <> select_change ->
        let s1 := step (EdgesChange changes) s in
        undoStack s1 = undoStack s ++ [mkEntry (nodes s) (edges s)]
        /\ redoStack s1 = []
        /\ edges s1 = applyEdgeChanges changes (edges s)
        /\ nodes (step Undo s1) = nodes s /\ edges (step Undo s1) = edges s).
Proof.
  split.
  - intros changes c Hin Hp Hs s1.
    assert (E : s1 = setNodes (fun nds => applyNodeChanges changes nds)
                              (saveCurrentState s s)).
    { unfold s1, dispatch, handler, onNodesChange; cbv zeta.
      rewrite (loud_filter_not_empty _ changes c Hin); [reflexivity |].
      now rewrite !ChangeType_neq. }
    assert (Hu : undoStack s1 = undoStack s ++ [mkEntry (nodes s) (edges s)])
      by (rewrite E, saveCurrentState_eq; reflexivity).
    split; [exact Hu |].
    split; [rewrite E, saveCurrentState_eq; reflexivity |].
    split; [rewrite E, saveCurrentState_eq; reflexivity |].
    rewrite (undo_top s1 _ _ Hu). split; reflexivity.
  - intros changes c Hin Hs s1.
    assert (E : s1 = setEdges (fun eds => applyEdgeChanges changes eds)
                              (saveCurrentState s s)).
    { unfold s1, dispatch, handler, onEdgesChange; cbv zeta.
      rewrite (loud_filter_not_empty _ changes c Hin); [reflexivity |].
      now rewrite ChangeType_neq. }
    assert (Hu : undoStack s1 = undoStack s ++ [mkEntry (nodes s) (edges s)])
      by (rewrite E, saveCurrentState_eq; reflexivity).
    split; [exact Hu |].
    split; [rewrite E, saveCurrentState_eq; reflexivity |].
    split; [rewrite E, saveCurrentState_eq; reflexivity |].
    rewrite (undo_top s1 _ _ Hu). split; reflexivity.
Qed.

(** [onConnect] shows its success notification and pushes a history entry
    on every call, also when the library adds no edge (an endpoint missing,
    the same connection already there), in which case nodes and edges are
    left as they were. *)
Theorem connect_always_reports_success (connection : Connection)
  (s : Session) :
  let s1 := step (Connect connection) s in
  toasts s1 = toasts s ++ [(toast_success, "Elemen berhasil dihubungkan"%string)]
  /\ undoStack s1 = undoStack s ++ [mkEntry (nodes s) (edges s)]
  /\ nodes s1 = nodes s
  /\ ((forall p, params p = connection -> addEdge p (edges s) = edges s) ->
      edges s1 = edges s).
Proof.
  intros s1.
  destruct (structural_history applyNodeChanges applyEdgeChanges addEdge
              (Connect connection) s eq_refl) as [Hu _].
  split; [reflexivity |]. split; [exact Hu |]. split; [reflexivity |].
  intros H. unfold s1, dispatch, handler, onConnect; cbv zeta; simpl.
  apply H. reflexivity.
Qed.

(** ** The selection *)

Lemma selection_untouched (ev : Event) (s : Session) :
  is_click ev = false ->
  selectedNode (step ev s) = selectedNode s
  /\ selectedEdge (step ev s) = selectedEdge s.
Proof.
  destruct ev; intros Hev; try discriminate Hev;
    unfold dispatch, handler, onNodesChange, onEdgesChange, handleUndo,
           handleRedo; cbv zeta; try (split; reflexivity).
  - destruct (0 <? _)%nat; split; reflexivity.
  - destruct (0 <? _)%nat; split; reflexivity.
  - destruct (_ =? 0)%nat; [split; reflexivity |].
    destruct (nth_error _ _); split; reflexivity.
  - destruct (_ =? 0)%nat; [split; reflexivity |].
    destruct (nth_error _ _); split; reflexivity.
Qed.

(** A node and an edge are never selected together: if that is so at the
    start, it is so after any sequence of events. *)
Theorem selection_is_exclusive (evs : list Event) :
  forall s : Session,
    selectedNode s = None \/ selectedEdge s = None ->
    selectedNode (steps evs s) = None \/ selectedEdge (steps evs s) = None.
Proof.
  induction evs as [| ev evs IH]; intros s H; [exact H |].
  rewrite steps_cons. apply IH.
  destruct (is_click ev) eqn:Hc.
  - destruct ev; try discriminate Hc; simpl; auto.
  - destruct (selection_untouched ev s Hc) as [H1 H2]. now rewrite H1, H2.
Qed.

End Editing.

Section Placement.

Variable applyNodeChanges : list NodeChange -> list Node -> list Node.
Variable applyEdgeChanges : list EdgeChange -> list Edge -> list Edge.
Variable addEdge : EdgeParams -> list Edge -> list Edge.

Local Abbreviation step := (dispatch applyNodeChanges applyEdgeChanges addEdge).
Local Abbreviation steps := (run applyNodeChanges applyEdgeChanges addEdge).

(** ** Columns the layout does not know *)

Lemma findIndex_none {A : Type} (p : A -> bool) (l : list A) :
  (forall a, In a l -> p a = false) -> findIndex p l = (-1)%Z.
Proof.
  induction l as [| a l IH]; intros H; simpl; [reflexivity |].
  rewrite (H a (or_introl eq_refl)), IH; [reflexivity |].
  intros b Hb. apply H. now right.
Qed.

Lemma findIndex_found {A : Type} (p : A -> bool) (l : list A) :
  (exists a, In a l /\ p a = true) ->
  forall l', (0 <= findIndex p (l ++ l') < Z.of_nat (List.length l))%Z.
Proof.
  induction l as [| a l IH]; intros [b [Hb Hp]] l'; [contradiction |].
  simpl app. simpl findIndex. destruct (p a) eqn:Ha.
  - simpl List.length. lia.
  - destruct Hb as [-> | Hb]; [congruence |].
    assert (H : (0 <= findIndex p (l ++ l') < Z.of_nat (List.length l))%Z)
      by (apply IH; now exists b).
    simpl List.length. destruct (findIndex p (l ++ l')); lia.
Qed.

(** A node created for a column the column sequence does not hold (or for
    no column at all) is put at [x = -270], one slot to the left of the
    first column. *)
Theorem new_node_in_unknown_column (r : Session) (nodeData : NodeInit)
  (now : N) :
  (forall col, In col (availableColumns r) ->
               column (init_data nodeData) <> Some (column_id col)) ->
  pos_x (position (newNode r nodeData now)) = (-270)%Z.
Proof.
  intros H. unfold newNode; simpl pos_x.
  rewrite findIndex_none; [reflexivity |].
  intros col Hcol. specialize (H col Hcol).
  destruct (column (init_data nodeData)) as [c |]; [| reflexivity].
  apply String.eqb_neq. congruence.
Qed.

(** A created node lies at least [120] below every non-header node of its
    column, wherever those have been dragged. *)
Theorem new_node_is_placed_below (r : Session) (nodeData : NodeInit)
  (now : N) (C : string) (n : Node) :
  column (init_data nodeData) = Some C ->
  In n (nodes r) -> in_column C n ->
  (pos_y (position n) + 120
   <= pos_y (position (newNode r nodeData now)))%Z.
Proof.
  intros HC Hn Hc.
  destruct (newNode_y r nodeData now C HC) as [_ H].
  destruct H as [m [_ [_ [Hle Hy]]]]; [now exists n |].
  rewrite Hy. specialize (Hle n Hn Hc). lia.
Qed.

Lemma first_column_index (cols : list Column) (C : string) :
  (exists col, In col cols /\ column_id col = C) ->
  exists i, column_index cols C i /\ (i < List.length cols)%nat.
Proof.
  induction cols as [| c cols IH]; intros [col [Hcol E]]; [contradiction |].
  destruct (String.eqb_spec (column_id c) C) as [Ec | Nc].
  - exists 0%nat. split; [| simpl; lia]. split.
    + exists c. split; [reflexivity | exact Ec].
    + intros j col' Hj. inversion Hj.
  - destruct Hcol as [-> | Hcol]; [contradiction |].
    destruct IH as [i [[[col' [Hn Hc]] Hfirst] Hlt]]; [now exists col |].
    exists (S i). split; [| simpl; lia]. split.
    + exists col'. split; assumption.
    + intros [| j] col'' Hj Hnth; simpl in Hnth.
      * injection Hnth as <-. exact Nc.
      * apply (Hfirst j col''); [lia | exact Hnth].
Qed.

Lemma column_index_more (cols more : list Column) (C : string) (i : nat) :
  column_index cols C i -> column_index (cols ++ more) C i.
Proof.
  intros [[col [Hn Hc]] Hfirst].
  assert (Hi : (i < List.length cols)%nat)
    by (apply nth_error_Some; congruence).
  split.
  - exists col. split; [| exact Hc]. now rewrite nth_error_app1.
  - intros j col' Hj Hnth. rewrite nth_error_app1 in Hnth by lia.
    now apply (Hfirst j col').
Qed.

(** A node created for a column that has just been added sits in the slot
    of that column's header when the column id is new.  When a column of the
    same id was there already, the node goes to the slot of the first column
    of that id, [x = i * (200 + 80) + (200 - 180) / 2] for its index [i],
    which lies to the left of the new header. *)
Theorem new_column_slot (columnData : Column) (nodeData : NodeInit) (now : N)
  (s : Session) :
  column (init_data nodeData) = Some (column_id columnData) ->
  let s1 := step (AddColumn columnData) s in
  let header := headerNode s columnData in
  let created := newNode s1 nodeData now in
  In header (nodes s1)
  /\ (~ has_column (column_id columnData) s ->
      pos_x (position created) = pos_x (position header))
  /\ (has_column (column_id columnData) s ->
      exists i,
        column_index (availableColumns s) (column_id columnData) i
        /\ pos_x (position created)
           = (Z.of_nat i * (200 + 80) + (200 - 180) / 2)%Z
        /\ (pos_x (position created) < pos_x (position header))%Z).
Proof.
  intros HC s1 header created.
  assert (Hcols : availableColumns s1 = availableColumns s ++ [columnData])
    by reflexivity.
  split; [| split].
  - change (nodes s1) with (nodes s ++ [header]).
    apply in_or_app. right. now left.
  - intros Hnew.
    assert (Hi : column_index (availableColumns s1) (column_id columnData)
                              (List.length (availableColumns s))).
    { rewrite Hcols. split.
      - exists columnData. split; [| reflexivity].
        rewrite nth_error_app2 by lia. now rewrite Nat.sub_diag.
      - intros j col Hj Hcol E. rewrite nth_error_app1 in Hcol by exact Hj.
        apply Hnew. exists col. split; [| exact E].
        now apply nth_error_In in Hcol. }
    unfold created.
    rewrite (newNode_x s1 nodeData now (column_id columnData) _ HC Hi).
    reflexivity.
  - intros Hdup.
    destruct (first_column_index (availableColumns s) (column_id columnData)
                                 Hdup) as [i [Hi Hlt]].
    exists i. split; [exact Hi |].
    assert (Hi1 : column_index (availableColumns s1) (column_id columnData) i)
      by (rewrite Hcols; now apply column_index_more).
    unfold created.
    rewrite (newNode_x s1 nodeData now (column_id columnData) i HC Hi1).
    split; [reflexivity |].
    unfold header, headerNode; simpl pos_x.
    change ((200 - 180) / 2)%Z with 10%Z. change (20 / 2)%Z with 10%Z. lia.
Qed.

(** ** A column filled by successive creations *)

Lemma creation_on_top (C : string) (s : Session) (M : Z) (d : NodeInit)
  (t : N) :
  column_top C s M ->
  column (init_data d) = Some C -> isHeader (init_data d) = false ->
  pos_y (position (newNode s d t)) = (M + 120)%Z
  /\ column_top C (step (CreateNode d t) s) (M + 120).
Proof.
  intros [[m0 [Hm0 [Hc0 Hy0]]] Hmax] HC HH.
  assert (Hy : pos_y (position (newNode s d t)) = (M + 120)%Z).
  { destruct (newNode_y s d t C HC) as [_ H].
    destruct H as [m [Hm [Hmc [Hle Hy]]]]; [now exists m0 |].
    specialize (Hle m0 Hm0 Hc0). specialize (Hmax m Hm Hmc). lia. }
  split; [exact Hy |].
  rewrite <- Hy. split.
  - exists (newNode s d t). split; [| split; [| reflexivity]].
    + change (nodes (step (CreateNode d t) s))
        with (nodes s ++ [newNode s d t]).
      apply in_or_app. right. now left.
    + now apply newNode_in_column.
  - intros n Hn Hc.
    change (nodes (step (CreateNode d t) s))
      with (nodes s ++ [newNode s d t]) in Hn.
    apply in_app_or in Hn as [Hn | [<- | []]]; [| lia].
    specialize (Hmax n Hn Hc). lia.
Qed.

Lemma creations_on_top (C : string) (creations : list (NodeInit * N)) :
  forall (s : Session) (M : Z),
    column_top C s M -> tasks_of C creations ->
    exists created,
      nodes (steps (creation_events creations) s) = nodes s ++ created
      /\ List.length created = List.length creations
      /\ forall k n, nth_error created k = Some n ->
                     pos_y (position n) = (M + 120 * (Z.of_nat k + 1))%Z.
Proof.
  induction creations as [| [d t] cs IH]; intros s M Htop Htasks.
  - exists []. split; [simpl; now rewrite app_nil_r |].
    split; [reflexivity |]. intros [| k] n H; discriminate H.
  - destruct (Htasks (d, t) (or_introl eq_refl)) as [HC HH]. simpl in HC, HH.
    destruct (creation_on_top C s M d t Htop HC HH) as [Hy Htop1].
    destruct (IH (step (CreateNode d t) s) (M + 120)%Z Htop1)
      as [created [Hn [Hl Hk]]].
    { intros c Hc. apply Htasks. now right. }
    exists (newNode s d t :: created).
    split; [| split].
    + change (creation_events ((d, t) :: cs))
        with (CreateNode d t :: creation_events cs).
      rewrite steps_cons, Hn.
      change (nodes (step (CreateNode d t) s))
        with (nodes s ++ [newNode s d t]).
      now rewrite <- app_assoc.
    + simpl. now rewrite Hl.
    + intros [| k] n Hnth; simpl in Hnth.
      * injection Hnth as <-. rewrite Hy. lia.
      * rewrite (Hk k n Hnth). lia.
Qed.

(** Any number of non-header nodes created one after the other in a column
    that had none are stacked [120] apart from [y = 100]: the one created in
    position [k] (from 0) is at [y = 100 + 120 * k]. *)
Theorem creations_stack_from_100 (C : string)
  (creations : list (NodeInit * N)) (s : Session) :
  tasks_of C creations ->
  (forall n, In n (nodes s) -> ~ in_column C n) ->
  exists created,
    nodes (steps (creation_events creations) s) = nodes s ++ created
    /\ List.length created = List.length creations
    /\ forall k n, nth_error created k = Some n ->
                   pos_y (position n) = (100 + 120 * Z.of_nat k)%Z.
Proof.
  intros Htasks Hnone. destruct creations as [| [d t] cs].
  - exists []. split; [simpl; now rewrite app_nil_r |].
    split; [reflexivity |]. intros [| k] n H; discriminate H.
  - destruct (Htasks (d, t) (or_introl eq_refl)) as [HC HH]. simpl in HC, HH.
    assert (Hy : pos_y (position (newNode s d t)) = 100%Z)
      by (apply (proj1 (newNode_y s d t C HC)); exact Hnone).
    assert (Htop : column_top C (step (CreateNode d t) s) 100).
    { change (nodes (step (CreateNode d t) s))
        with (nodes s ++ [newNode s d t]).
      split.
      - exists (newNode s d t). split; [| split; [| exact Hy]].
        + change (nodes (step (CreateNode d t) s))
            with (nodes s ++ [newNode s d t]).
          apply in_or_app. right. now left.
        + now apply newNode_in_column.
      - intros n Hn Hc.
        change (nodes (step (CreateNode d t) s))
          with (nodes s ++ [newNode s d t]) in Hn.
        apply in_app_or in Hn as [Hn | [<- | []]]; [| lia].
        exfalso. exact (Hnone n Hn Hc). }
    destruct (creations_on_top C cs (step (CreateNode d t) s) 100%Z Htop)
      as [created [Hn [Hl Hk]]].
    { intros c Hc. apply Htasks. now right. }
    exists (newNode s d t :: created).
    split; [| split].
    + change (creation_events ((d, t) :: cs))
        with (CreateNode d t :: creation_events cs).
      rewrite steps_cons, Hn.
      change (nodes (step (CreateNode d t) s))
        with (nodes s ++ [newNode s d t]).
      now rewrite <- app_assoc.
    + simpl. now rewrite Hl.
    + intros [| k] n Hnth; simpl in Hnth.
      * injection Hnth as <-. rewrite Hy. lia.
      * rewrite (Hk k n Hnth). lia.
Qed.

End Placement.

Section WellFormed.

Variable applyNodeChanges : list NodeChange -> list Node -> list Node.
Variable applyEdgeChanges : list EdgeChange -> list Edge -> list Edge.
Variable addEdge : EdgeParams -> list Edge -> list Edge.

Local Abbreviation step := (dispatch applyNodeChanges applyEdgeChanges addEdge).
Local Abbreviation steps := (run applyNodeChanges applyEdgeChanges addEdge).
Local Abbreviation agrees :=
  (keeps_well_formed applyNodeChanges applyEdgeChanges addEdge).
Local Abbreviation all_agree :=
  (all_keep_well_formed applyNodeChanges applyEdgeChanges addEdge).

(** ** Well-formed diagrams stay well formed *)

Lemma well_formed_append (ns : list Node) (es : list Edge) (n : Node) :
  well_formed ns es -> ~ In (node_id n) (map node_id ns) ->
  well_formed (ns ++ [n]) es.
Proof.
  intros [Hnd Hcl] Hfresh. split.
  - rewrite map_app. now apply NoDup_snoc.
  - intros e He. destruct (Hcl e He) as [Hs Ht].
    rewrite map_app. split; apply in_or_app; now left.
Qed.

Lemma NoDup_ids_filter (p : Node -> bool) (ns : list Node) :
  NoDup (map node_id ns) -> NoDup (map node_id (filter p ns)).
Proof.
  induction ns as [| n ns IH]; intros Hnd; simpl; [constructor |].
  simpl in Hnd. inversion Hnd as [| ? ? Hn Hns]; subst.
  destruct (p n); [| now apply IH].
  simpl. constructor; [| now apply IH].
  intros Hin. apply Hn. apply in_map_iff in Hin as [m [Em Hm]].
  apply filter_In in Hm as [Hm _]. apply in_map_iff. now exists m.
Qed.

Lemma well_formed_delete (nodeId : string) (ns : list Node) (es : list Edge) :
  well_formed ns es ->
  well_formed
    (filter (fun node => negb (String.eqb (node_id node) nodeId)) ns)
    (filter (fun edge => negb (String.eqb (source edge) nodeId)
                         && negb (String.eqb (target edge) nodeId)) es).
Proof.
  intros [Hnd Hcl]. split; [now apply NoDup_ids_filter |].
  intros e He. apply filter_In in He as [He Hinc].
  apply not_incident_iff in Hinc as [Hs Ht].
  destruct (Hcl e He) as [Hsrc Htgt].
  split.
  - apply in_map_iff in Hsrc as [n [En Hn]]. apply in_map_iff.
    exists n. split; [exact En |]. apply filter_In. split; [exact Hn |].
    apply differs_iff. congruence.
  - apply in_map_iff in Htgt as [n [En Hn]]. apply in_map_iff.
    exists n. split; [exact En |]. apply filter_In. split; [exact Hn |].
    apply differs_iff. congruence.
Qed.

Lemma update_keeps_ids (nodeId : string) (d : NodeData) (ns : list Node) :
  map node_id
      (map (fun node => if String.eqb (node_id node) nodeId
                        then with_data node d else node) ns)
  = map node_id ns.
Proof.
  rewrite map_map. apply map_ext. intros n.
  now destruct (String.eqb (node_id n) nodeId).
Qed.

Lemma well_formed_update (nodeId : string) (d : NodeData) (ns : list Node)
  (es : list Edge) :
  well_formed ns es ->
  well_formed (map (fun node => if String.eqb (node_id node) nodeId
                                then with_data node d else node) ns) es.
Proof.
  intros [Hnd Hcl]. unfold well_formed. rewrite update_keeps_ids.
  split; assumption.
Qed.

Lemma all_well_formed_intro (t : Session) :
  well_formed (nodes t) (edges t) ->
  (forall e, In e (undoStack t) ->
             well_formed (entry_nodes e) (entry_edges e)) ->
  (forall e, In e (redoStack t) ->
             well_formed (entry_nodes e) (entry_edges e)) ->
  all_well_formed t.
Proof.
  intros H1 H2 H3. split; [exact H1 |].
  intros e He. apply in_app_or in He as [He | He]; auto.
Qed.

Lemma pushed_well_formed (s : Session) (stack : list HistoryEntry) :
  well_formed (nodes s) (edges s) ->
  (forall e, In e stack -> well_formed (entry_nodes e) (entry_edges e)) ->
  forall e, In e (stack ++ [mkEntry (nodes s) (edges s)]) ->
            well_formed (entry_nodes e) (entry_edges e).
Proof.
  intros Hs Hst e He. apply in_app_or in He as [He | [<- | []]]; auto.
Qed.

(** After a snapshot and a change of the diagram to a well-formed one. *)
Lemma snapshot_then_change (s t : Session) :
  all_well_formed s ->
  undoStack t = undoStack s ++ [mkEntry (nodes s) (edges s)] ->
  redoStack t = [] ->
  well_formed (nodes t) (edges t) ->
  all_well_formed t.
Proof.
  intros [Hs Hst] Hu Hr Ht. apply all_well_formed_intro; [exact Ht | |].
  - rewrite Hu. apply pushed_well_formed; [exact Hs |].
    intros e He. apply Hst, in_or_app. now left.
  - rewrite Hr. intros e [].
Qed.

Lemma same_history (s t : Session) :
  all_well_formed s ->
  undoStack t = undoStack s -> redoStack t = redoStack s ->
  well_formed (nodes t) (edges t) ->
  all_well_formed t.
Proof.
  intros [Hs Hst] Hu Hr Ht. split; [exact Ht |]. now rewrite Hu, Hr.
Qed.

(** One event keeps the diagram and the whole history well formed, provided
    it brings what [keeps_well_formed] asks: a node or header id that is not
    in use, and well-formed results of the library's reducers.  Deleting a
    node, replacing its data, undo, redo, clicks and the end of a drag need
    nothing. *)
Lemma event_keeps_well_formed (ev : Event) (s : Session) :
  all_well_formed s -> agrees ev s -> all_well_formed (step ev s).
Proof.
  intros Hwf Hok. pose proof Hwf as [Hs Hst].
  destruct ev; simpl in Hok.
  - (* NodesChange *)
    unfold dispatch, handler, onNodesChange; cbv zeta.
    destruct (0 <? _)%nat.
    + apply (snapshot_then_change s); try exact Hwf;
        try (rewrite saveCurrentState_eq; reflexivity).
      rewrite saveCurrentState_eq. exact Hok.
    + apply (same_history s); try exact Hwf; try reflexivity. exact Hok.
  - (* EdgesChange *)
    unfold dispatch, handler, onEdgesChange; cbv zeta.
    destruct (0 <? _)%nat.
    + apply (snapshot_then_change s); try exact Hwf;
        try (rewrite saveCurrentState_eq; reflexivity).
      rewrite saveCurrentState_eq. exact Hok.
    + apply (same_history s); try exact Hwf; try reflexivity. exact Hok.
  - (* Connect *)
    destruct (structural_history applyNodeChanges applyEdgeChanges addEdge
                (Connect connection) s eq_refl) as [Hu Hr].
    apply (snapshot_then_change s); try assumption.
  - apply (same_history s); try exact Hwf; try reflexivity. exact Hs.
  - apply (same_history s); try exact Hwf; try reflexivity. exact Hs.
  - apply (same_history s); try exact Hwf; try reflexivity. exact Hs.
  - (* NodeDragStop *)
    unfold dispatch, handler, onNodeDragStop.
    apply (snapshot_then_change s); try exact Hwf;
      try (rewrite saveCurrentState_eq; reflexivity).
    rewrite saveCurrentState_eq. exact Hs.
  - (* CreateNode *)
    destruct (structural_history applyNodeChanges applyEdgeChanges addEdge
                (CreateNode nodeData now) s eq_refl) as [Hu Hr].
    apply (snapshot_then_change s); try assumption.
    change (well_formed (nodes s ++ [newNode s nodeData now]) (edges s)).
    apply well_formed_append; [exact Hs | exact Hok].
  - (* AddColumn *)
    destruct (structural_history applyNodeChanges applyEdgeChanges addEdge
                (AddColumn columnData) s eq_refl) as [Hu Hr].
    apply (snapshot_then_change s); try assumption.
    change (well_formed (nodes s ++ [headerNode s columnData]) (edges s)).
    apply well_formed_append; [exact Hs | exact Hok].
  - (* UpdateNode *)
    destruct (structural_history applyNodeChanges applyEdgeChanges addEdge
                (UpdateNode nodeId d) s eq_refl) as [Hu Hr].
    apply (snapshot_then_change s); try assumption.
    apply (well_formed_update nodeId d _ _ Hs).
  - (* DeleteNode *)
    destruct (structural_history applyNodeChanges applyEdgeChanges addEdge
                (DeleteNode nodeId) s eq_refl) as [Hu Hr].
    apply (snapshot_then_change s); try assumption.
    apply (well_formed_delete nodeId _ _ Hs).
  - (* Undo *)
    destruct (undoStack s) as [| e0 u0] eqn:Hu0.
    + rewrite (undo_on_empty applyNodeChanges applyEdgeChanges addEdge s Hu0).
      exact Hwf.
    + destruct (@exists_last _ (e0 :: u0)) as [u [e Hue]]; [discriminate |].
      rewrite Hue in Hu0, Hst.
      rewrite (undo_pops applyNodeChanges applyEdgeChanges addEdge s u e Hu0).
      apply all_well_formed_intro; simpl.
      * apply Hst. apply in_or_app. left. apply in_or_app.
        right. now left.
      * intros e' He'. apply Hst. apply in_or_app. left.
        apply in_or_app. now left.
      * apply pushed_well_formed; [exact Hs |].
        intros e' He'. apply Hst, in_or_app. now right.
  - (* Redo *)
    destruct (redoStack s) as [| e0 u0] eqn:Hu0.
    + rewrite (redo_on_empty applyNodeChanges applyEdgeChanges addEdge s Hu0).
      exact Hwf.
    + destruct (@exists_last _ (e0 :: u0)) as [u [e Hue]]; [discriminate |].
      rewrite Hue in Hu0, Hst.
      rewrite (redo_pops applyNodeChanges applyEdgeChanges addEdge s u e Hu0).
      apply all_well_formed_intro; simpl.
      * apply Hst. apply in_or_app. right. apply in_or_app.
        right. now left.
      * apply pushed_well_formed; [exact Hs |].
        intros e' He'. apply Hst, in_or_app. now left.
      * intros e' He'. apply Hst. apply in_or_app. right.
        apply in_or_app. now left.
Qed.

(** The same through a whole sequence of events: from a well-formed session,
    as long as each event brings what it must in the state it meets, node
    ids stay pairwise distinct and no edge is left without an endpoint, in
    the diagram shown and in every diagram undo or redo can bring back. *)
Theorem events_keep_well_formed (evs : list Event) :
  forall s : Session,
    all_well_formed s -> all_agree evs s -> all_well_formed (steps evs s).
Proof.
  induction evs as [| ev evs IH]; intros s Hwf Hok; [exact Hwf |].
  destruct Hok as [Hev Hevs]. rewrite steps_cons.
  apply IH; [| exact Hevs]. now apply event_keeps_well_formed.
Qed.

End WellFormed.

Section Keyboard.

Variable applyNodeChanges : list NodeChange -> list Node -> list Node.
Variable applyEdgeChanges : list EdgeChange -> list Edge -> list Edge.
Variable addEdge : EdgeParams -> list Edge -> list Edge.
Variable encodeURIComponent : string -> string.

Local Abbreviation step := (dispatch applyNodeChanges applyEdgeChanges addEdge).
Local Abbreviation press := (keydown encodeURIComponent).

(** ** The keyboard *)

Lemma outside_not_listed (page : Page) :
  outside_text_input page ->
  existsb (String.eqb (activeTag page)) ["INPUT"; "TEXTAREA"]%string = false.
Proof.
  intros [H1 H2]. simpl.
  apply String.eqb_neq in H1, H2. now rewrite H1, H2.
Qed.

(** While the focus is in a text input or a text area, no key does
    anything: the state is left as it is and the browser's default action is
    not prevented. *)
Theorem typing_disables_shortcuts (page : Page) (event : KeyboardEvent)
  (v : Flow) :
  activeTag page = "INPUT"%string \/ activeTag page = "TEXTAREA"%string ->
  press page event v = v.
Proof.
  intros [H | H]; unfold keydown, handleKeyDown; rewrite H; reflexivity.
Qed.

(** With the focus elsewhere and Ctrl or Cmd held: [z] without Shift is an
    undo when there is something to undo, and otherwise does nothing at all;
    [y], and [z] with Shift, prevent the default action and are a redo, which
    changes nothing when there is nothing to redo. *)
Theorem keyboard_undo_redo (page : Page) (event : KeyboardEvent) (v : Flow) :
  outside_text_input page ->
  ctrlKey event || metaKey event = true ->
  (key event = "z"%string -> shiftKey event = false ->
   (undoStack (session v) = [] -> press page event v = v)
   /\ (undoStack (session v) <> [] ->
       press page event v
       = on_session (step Undo) (call PreventDefault v)))
  /\ (key event = "y"%string
      \/ (key event = "z"%string /\ shiftKey event = true) ->
      press page event v
      = on_session (step Redo) (call PreventDefault v)).
Proof.
  intros Hout Hmod. unfold keydown, handleKeyDown.
  rewrite (outside_not_listed page Hout), Hmod. split.
  - intros Hk Hs. rewrite Hk, Hs. simpl. split.
    + intros Hu. rewrite Hu. reflexivity.
    + intros Hu. destruct (undoStack (session v)) eqn:E; [contradiction |].
      reflexivity.
  - intros [Hk | [Hk Hs]].
    + rewrite Hk. simpl. rewrite !andb_false_r. simpl.
      destruct (redoStack (session v)) eqn:E; simpl.
      * unfold on_session, dispatch, handler, handleRedo; simpl.
        rewrite E. reflexivity.
      * reflexivity.
    + rewrite Hk, Hs. simpl.
      destruct (redoStack (session v)) eqn:E; simpl.
      * unfold on_session, dispatch, handler, handleRedo; simpl.
        rewrite E. reflexivity.
      * reflexivity.
Qed.

Lemma delete_key_reaches_its_branch (k : string) :
  k = "Delete"%string \/ k = "Backspace"%string ->
  String.eqb k "n" = false /\ String.eqb k "c" = false
  /\ String.eqb k "z" = false /\ String.eqb k "y" = false
  /\ String.eqb k "s" = false /\ String.eqb k "e" = false
  /\ String.eqb k "+" = false /\ String.eqb k "=" = false
  /\ String.eqb k "-" = false /\ String.eqb k "0" = false
  /\ String.eqb k "?" = false
  /\ (String.eqb k "Delete" || String.eqb k "Backspace") = true.
Proof. intros [-> | ->]; repeat split; reflexivity. Qed.

(** With the focus outside a text input, Delete or Backspace, whatever the
    modifiers held, deletes the selected node together with the edges joined
    to it, pushes a history entry and clears the selection; with no node
    selected the key does nothing. *)
Theorem keyboard_delete (page : Page) (event : KeyboardEvent) (v : Flow) :
  outside_text_input page ->
  key event = "Delete"%string \/ key event = "Backspace"%string ->
  (selectedNode (session v) = None -> press page event v = v)
  /\ (forall n, selectedNode (session v) = Some n ->
        let v1 := press page event v in
        v1 = on_session (setSelectedNode None)
               (on_session (step (DeleteNode (node_id n)))
                           (call PreventDefault v))
        /\ selectedNode (session v1) = None
        /\ ~ has_node (node_id n) (session v1)
        /\ (forall e, In e (edges (session v1)) ->
                      source e <> node_id n /\ target e <> node_id n)
        /\ undoStack (session v1)
           = undoStack (session v)
             ++ [mkEntry (nodes (session v)) (edges (session v))]).
Proof.
  intros Hout Hk. unfold keydown, handleKeyDown.
  rewrite (outside_not_listed page Hout).
  destruct (delete_key_reaches_its_branch (key event) Hk)
    as (K1 & K2 & K3 & K4 & K5 & K6 & K7 & K8 & K9 & K10 & K11 & K12).
  rewrite K1, K2, K3, K4, K5, K6, K7, K8, K9, K10, K11, K12.
  rewrite !andb_false_r. simpl. split.
  - intros Hsel. rewrite Hsel. reflexivity.
  - intros n Hsel. rewrite Hsel. simpl.
    split; [reflexivity |]. split; [reflexivity |].
    split; [| split].
    + intros [m [Hm E]]. simpl in Hm.
      apply filter_In in Hm as [_ Hm]. apply differs_iff in Hm. contradiction.
    + intros e He. simpl in He. apply filter_In in He as [_ He].
      now apply not_incident_iff.
    + simpl. now rewrite deepCopy_entry.
Qed.

End Keyboard.

Section Shortcuts.

Variable encodeURIComponent : string -> string.

Local Abbreviation press := (keydown encodeURIComponent).

Lemma stored_other (k : string) (cs : list Call) (c : Call) :
  is_setItem c = false -> stored k (cs ++ [c]) = stored k cs.
Proof.
  intros Hc. induction cs as [| c0 cs IH]; simpl.
  - destruct c; [reflexivity .. | discriminate Hc | reflexivity | reflexivity].
  - now rewrite IH.
Qed.

Lemma stored_set (k : string) (cs : list Call) (d : HistoryEntry) :
  stored k (cs ++ [SetItem k d]) = Some d.
Proof.
  induction cs as [| c0 cs IH]; simpl.
  - now rewrite String.eqb_refl.
  - now rewrite IH.
Qed.

Ltac split_conditions :=
  repeat match goal with
         | |- context [if ?c then _ else _] => destruct c
         | |- context [match instance ?p with _ => _ end] =>
             destruct (instance p)
         | |- context [match selectedNode ?s with _ => _ end] =>
             destruct (selectedNode s)
         end.

(** No key writes to the browser store.  In particular Ctrl+S starts the
    image export; it does not save the diagram. *)
Theorem keyboard_never_writes_the_store (page : Page) (event : KeyboardEvent)
  (v : Flow) (k : string) :
  stored k (calls (press page event v)) = stored k (calls v).
Proof.
  unfold keydown, handleKeyDown, handleSaveAsImage, handleExport,
         handleZoomIn, handleZoomOut, handleFitView; cbv zeta.
  split_conditions; simpl; rewrite ?stored_other by reflexivity; reflexivity.
Qed.

(** With the focus outside a text input, only [z], [y], Delete and
    Backspace act on the diagram: any other key, with any modifiers, leaves
    nodes, edges, both history stacks, the columns and the selection as they
    were. *)
Theorem other_keys_leave_the_diagram (page : Page) (event : KeyboardEvent)
  (v : Flow) :
  ~ editing_key (key event) ->
  same_diagram (press page event v) v.
Proof.
  intros Hk.
  assert (Kz : String.eqb (key event) "z" = false)
    by (apply String.eqb_neq; intros E; apply Hk; unfold editing_key; auto).
  assert (Ky : String.eqb (key event) "y" = false)
    by (apply String.eqb_neq; intros E; apply Hk; unfold editing_key; auto).
  assert (Kd : String.eqb (key event) "Delete" = false)
    by (apply String.eqb_neq; intros E; apply Hk; unfold editing_key; auto).
  assert (Kb : String.eqb (key event) "Backspace" = false)
    by (apply String.eqb_neq; intros E; apply Hk; unfold editing_key; auto).
  unfold keydown, handleKeyDown, handleSaveAsImage, handleExport,
         handleZoomIn, handleZoomOut, handleFitView; cbv zeta.
  rewrite Kz, Ky, Kd, Kb. rewrite ?andb_false_r. cbn [orb andb].
  split_conditions; unfold same_diagram; simpl; repeat split; reflexivity.
Qed.

End Shortcuts.

(** ** Saving to the browser store *)

Lemma no_header_edge_endpoints (s : Session) (i : string) :
  NoDup (map node_id (nodes s)) ->
  In i (map node_id (nodes s)) ->
  (In i (map node_id
           (filter (fun node => negb (isHeader (data node))) (nodes s)))
   <-> ~ header_id s i).
Proof.
  intros Hnd Hi. split.
  - intros Hin [h [Hh [Hhd Ehi]]].
    apply in_map_iff in Hin as [n [En Hn]].
    apply filter_In in Hn as [Hn Hnh]. apply negb_true_iff in Hnh.
    assert (E : n = h).
    { clear Hi. revert Hnd Hn Hh. generalize (nodes s). intros l.
      induction l as [| a l IH]; intros Hnd Hn Hh; [contradiction |].
      simpl in Hnd. inversion Hnd as [| ? ? Ha Hl]; subst.
      destruct Hn as [-> | Hn], Hh as [Eh | Hh].
      - now subst.
      - exfalso. apply Ha. apply in_map_iff. exists h. split; [| exact Hh].
        congruence.
      - subst a. exfalso. apply Ha. apply in_map_iff. exists n.
        split; [| exact Hn]. congruence.
      - now apply IH. }
    congruence.
  - intros Hnot. apply in_map_iff in Hi as [n [En Hn]].
    apply in_map_iff. exists n. split; [exact En |].
    apply filter_In. split; [exact Hn |].
    destruct (isHeader (data n)) eqn:Hh; [| reflexivity].
    exfalso. apply Hnot. now exists n.
Qed.

(** [handleSave] puts under the key [flowChart], over whatever was there,
    the nodes that are not column headers, in their order, with all the
    edges; it shows a success notification and leaves the diagram, the
    history and the selection as they were. *)
Theorem save_writes_the_tasks (v : Flow) :
  let v1 := handleSave v v in
  exists doc,
    stored "flowChart" (calls v1) = Some doc
    /\ (forall n, In n (entry_nodes doc) <->
                  In n (nodes (session v)) /\ isHeader (data n) = false)
    /\ (forall p, filter p (entry_nodes doc)
                  = filter (fun n => negb (isHeader (data n)) && p n)
                           (nodes (session v)))
    /\ entry_edges doc = edges (session v)
    /\ same_diagram v1 v
    /\ last_toast v1 = Some (toast_success, "Diagram berhasil disimpan"%string).
Proof.
  intros v1. eexists. split; [| split; [| split; [| split; [| split]]]].
  - unfold v1, handleSave; cbv zeta. simpl calls. apply stored_set.
  - intros n. simpl. rewrite filter_In, negb_true_iff. reflexivity.
  - intros p. simpl. induction (nodes (session v)) as [| a l IH];
      [reflexivity |].
    simpl. destruct (isHeader (data a)); simpl; [exact IH |].
    destruct (p a); [now rewrite IH | exact IH].
  - reflexivity.
  - unfold same_diagram; simpl; repeat split; reflexivity.
  - unfold last_toast, v1, handleSave; cbv zeta; simpl.
    apply top_of_push.
Qed.

(** The document saved from a well-formed diagram is itself well formed
    exactly when no edge is joined to a column header: headers are left out
    of the saved nodes, the edges joined to them are not. *)
Theorem saved_document_well_formed (v : Flow) :
  well_formed (nodes (session v)) (edges (session v)) ->
  exists doc,
    stored "flowChart" (calls (handleSave v v)) = Some doc
    /\ (well_formed (entry_nodes doc) (entry_edges doc) <->
        forall e, In e (edges (session v)) ->
                  ~ header_id (session v) (source e)
                  /\ ~ header_id (session v) (target e)).
Proof.
  intros [Hnd Hcl]. eexists. split.
  - unfold handleSave; cbv zeta. simpl calls. apply stored_set.
  - simpl. split.
    + intros [_ Hdoc] e He. destruct (Hcl e He) as [Hs Ht].
      destruct (Hdoc e He) as [Hs' Ht'].
      split; apply (no_header_edge_endpoints (session v) _ Hnd); assumption.
    + intros H. split; [now apply NoDup_ids_filter |].
      intros e He. destruct (Hcl e He) as [Hs Ht].
      destruct (H e He) as [Hs' Ht'].
      split; apply (no_header_edge_endpoints (session v) _ Hnd); assumption.
Qed.

(** ** The image export *)

Lemma substring_prefix (p : string) :
  forall s, substring 0 (String.length p) s = p
            <-> exists post, s = String.append p post.
Proof.
  induction p as [| a p IH]; intros s.
  - simpl. split; [intros _; now exists s | intros _; now destruct s].
  - destruct s as [| b s]; simpl.
    + split; [discriminate | intros [post H]; discriminate H].
    + split.
      * intros H. injection H as -> H'. apply IH in H' as [post ->].
        now exists post.
      * intros [post H]. injection H as -> ->. f_equal. apply IH.
        now exists post.
Qed.

Lemma prefix_iff (p s : string) :
  String.prefix p s = true <-> exists post, s = String.append p post.
Proof. rewrite String.prefix_correct. apply substring_prefix. Qed.

Lemma index_spec (p : string) :
  p <> EmptyString ->
  forall s, match String.index 0 p s with
            | Some _ => occurs_in p s
            | None => ~ occurs_in p s
            end.
Proof.
  intros Hp. induction s as [| b s IH].
  - simpl. destruct p as [| a p]; [contradiction |].
    intros [before [after H]]. destruct before; discriminate H.
  - change (String.index 0 p (String b s))
      with (if String.prefix p (String b s) then Some 0%nat
            else match String.index 0 p s with
                 | Some n => Some (S n)
                 | None => None
                 end).
    destruct (String.prefix p (String b s)) eqn:Hpre.
    + cbv iota. apply prefix_iff in Hpre as [post Hpost].
      exists EmptyString, post. exact Hpost.
    + destruct (String.index 0 p s); cbv iota in *.
      * destruct IH as [before [after H]].
        exists (String b before), after. simpl. now rewrite H.
      * intros [before [after H]]. destruct before as [| c before].
        -- simpl in H. assert (Ht : String.prefix p (String b s) = true)
             by (apply prefix_iff; now exists after).
           congruence.
        -- simpl in H. injection H as _ H. apply IH. now exists before, after.
Qed.

Lemma checkClass_false_iff (str cls : string) :
  cls <> EmptyString ->
  (Z.eqb (indexOf str cls) (-1) = false <-> occurs_in cls str).
Proof.
  intros Hcls. unfold indexOf. pose proof (index_spec cls Hcls str) as H.
  destruct (String.index 0 cls str) as [n |].
  - split; [intros _; exact H | intros _; apply Z.eqb_neq; lia].
  - split; [discriminate | intros Ho; contradiction].
Qed.

(** The rasteriser is told to leave out exactly the elements whose class
    text has [react-flow__controls], [react-flow__minimap],
    [react-flow__panel] or [toast-] somewhere inside it (so also an element
    whose class merely contains one of these as part of a longer name); a
    missing node, and a node without usable class text, are kept. *)
Theorem image_filter_leaves_out_overlays :
  imageFilter None = true
  /\ imageFilter (Some ClassMissing) = true
  /\ imageFilter (Some ClassOpaque) = true
  /\ forall className,
       imageFilter (Some className) = false
       <-> (occurs_in "react-flow__controls" (class_text className)
            \/ occurs_in "react-flow__minimap" (class_text className)
            \/ occurs_in "react-flow__panel" (class_text className)
            \/ occurs_in "toast-" (class_text className)).
Proof.
  split; [reflexivity |]. split; [reflexivity |]. split; [reflexivity |].
  intros className.
  assert (E : imageFilter (Some className)
              = Z.eqb (indexOf (class_text className) "react-flow__controls")
                      (-1)
                && Z.eqb (indexOf (class_text className)
                                  "react-flow__minimap") (-1)
                && Z.eqb (indexOf (class_text className) "react-flow__panel")
                         (-1)
                && Z.eqb (indexOf (class_text className) "toast-") (-1))
    by (destruct className; reflexivity).
  rewrite E, !andb_false_iff.
  rewrite !checkClass_false_iff by discriminate.
  tauto.
Qed.

Lemma before_T_of_iso (date time : string) :
  ~ occurs_in "T" date ->
  before_T (String.append date (String "T" time)) = date.
Proof.
  induction date as [| c date IH]; intros Hno; simpl.
  - reflexivity.
  - destruct (Ascii.eqb_spec c "T") as [-> | _].
    + exfalso. apply Hno. now exists EmptyString, date.
    + f_equal. apply IH. intros [before [after H]]. apply Hno.
      exists (String c before), after. simpl. now rewrite H.
Qed.

(** When the first rasterisation succeeds at a time whose ISO text is
    [<date>T<time>], the file offered is [flowchart-<date>.png]; when it is
    the second one that succeeds, [flowchart-<date>-alt.png]. *)
Theorem image_file_is_named_by_date (date time url message : string)
  (second : Attempt) (v : Flow) :
  ~ occurs_in "T" date ->
  calls (imageTimer (Resolved url) second
                    (String.append date (String "T" time)) v)
  = calls v ++ [Download (String.append "flowchart-"
                            (String.append date ".png")) url]
  /\ calls (imageTimer (Rejected message) (Resolved url)
                       (String.append date (String "T" time)) v)
     = calls v ++ [Download (String.append "flowchart-"
                               (String.append date "-alt.png")) url].
Proof.
  intros Hno. unfold imageTimer; cbv zeta; simpl calls.
  now rewrite (before_T_of_iso date time Hno).
Qed.

(** Whatever the two rasterisations do, the export offers at most one file
    and calls nothing else; it leaves the diagram, the history and the
    selection as they were.  When the first call did not throw, the user is
    told how it ended: the last notification is a success when a file was
    offered and an error when none was.  When the first call throws, nothing
    is offered and nothing is shown. *)
Theorem image_export_outcomes (first second : Attempt) (iso : string)
  (v : Flow) :
  let v1 := imageTimer first second iso v in
  same_diagram v1 v
  /\ (exists offered,
        calls v1 = calls v ++ offered
        /\ (List.length offered <= 1)%nat
        /\ forallb is_download offered = true
        /\ (first <> Thrown ->
            exists message,
              last_toast v1
              = Some (match offered with
                      | [] => toast_error
                      | _ :: _ => toast_success
                      end, message)))
  /\ (first = Thrown -> v1 = v).
Proof.
  intros v1. unfold v1, imageTimer; cbv zeta.
  split; [| split].
  - destruct first as [u | m |]; [| destruct second as [u | m' |] |];
      unfold same_diagram; simpl; repeat split; reflexivity.
  - destruct first as [u | m |]; [| destruct second as [u | m' |] |].
    + eexists [_]. split; [reflexivity |]. split; [simpl; lia |].
      split; [reflexivity |]. intros _. eexists.
      unfold last_toast; simpl. apply top_of_push.
    + eexists [_]. split; [reflexivity |]. split; [simpl; lia |].
      split; [reflexivity |]. intros _. eexists.
      unfold last_toast; simpl. apply top_of_push.
    + exists []. split; [simpl; now rewrite app_nil_r |].
      split; [simpl; lia |]. split; [reflexivity |]. intros _. eexists.
      unfold last_toast; simpl. apply top_of_push.
    + exists []. split; [simpl; now rewrite app_nil_r |].
      split; [simpl; lia |]. split; [reflexivity |]. intros _. eexists.
      unfold last_toast; simpl. apply top_of_push.
    + exists []. split; [simpl; now rewrite app_nil_r |].
      split; [simpl; lia |]. split; [reflexivity |]. intros H.
      contradiction.
  - intros ->. reflexivity.
Qed.

(** * The further properties on the sample sessions *)

Lemma undos_then_redos_witness :
  let s1 := ref_run (repeat Undo 2) session_two in
  let s2 := ref_run (repeat Redo 2) s1 in
  (List.length (undoStack s1) + 2 = List.length (undoStack session_two)
   /\ List.length (redoStack s1) = List.length (redoStack session_two) + 2)%nat
  /\ nodes s2 = nodes session_two /\ edges s2 = edges session_two
  /\ undoStack s2 = undoStack session_two
  /\ redoStack s2 = redoStack session_two.
Proof.
  apply (undos_then_redos_round_trip
           ref_applyNodeChanges ref_applyEdgeChanges ref_addEdge
           2 session_two).
  simpl. lia.
Defined.

Lemma redos_then_undos_witness :
  let s1 := ref_run (repeat Redo 1) session_after_undo in
  let s2 := ref_run (repeat Undo 1) s1 in
  (List.length (redoStack s1) + 1 = List.length (redoStack session_after_undo)
   /\ List.length (undoStack s1)
      = List.length (undoStack session_after_undo) + 1)%nat
  /\ nodes s2 = nodes session_after_undo
  /\ edges s2 = edges session_after_undo
  /\ undoStack s2 = undoStack session_after_undo
  /\ redoStack s2 = redoStack session_after_undo.
Proof.
  apply (redos_then_undos_round_trip
           ref_applyNodeChanges ref_applyEdgeChanges ref_addEdge
           1 session_after_undo).
  simpl. lia.
Defined.

Lemma change_notifications_witness :
  nodes (ref_dispatch Undo
           (ref_dispatch (NodesChange [NodeSelectionChange "n2" true;
                                       NodeRemoveChange "n1"]) session0))
  = nodes session0
  /\ edges (ref_dispatch Undo
              (ref_dispatch (EdgesChange [EdgeRemoveChange "e1"]) session0))
     = edges session0.
Proof.
  destruct (change_notifications_are_undoable
              ref_applyNodeChanges ref_applyEdgeChanges ref_addEdge session0)
    as [Hn He].
  split.
  - destruct (Hn [NodeSelectionChange "n2" true; NodeRemoveChange "n1"]
                 (NodeRemoveChange "n1"))
      as [_ [_ [_ [H _]]]];
      [simpl; auto | discriminate | discriminate | exact H].
  - destruct (He [EdgeRemoveChange "e1"] (EdgeRemoveChange "e1"))
      as [_ [_ [_ [_ H]]]]; [simpl; auto | discriminate | exact H].
Defined.

Lemma connect_without_source_witness :
  edges (ref_dispatch (Connect (mkConnection None (Some "n2"%string)
                                             None None)) session0)
  = edges session0
  /\ toasts (ref_dispatch (Connect (mkConnection None (Some "n2"%string)
                                                 None None)) session0)
     = [(toast_success, "Elemen berhasil dihubungkan"%string)].
Proof.
  destruct (connect_always_reports_success
              ref_applyNodeChanges ref_applyEdgeChanges ref_addEdge
              (mkConnection None (Some "n2"%string) None None) session0)
    as [Ht [_ [_ He]]].
  split; [| exact Ht].
  apply He. intros p Hp. unfold ref_addEdge. rewrite Hp. reflexivity.
Defined.

Lemma selection_is_exclusive_witness :
  selectedNode
    (ref_run [NodeClick (sampleNode "n1" "A" 10 100);
              EdgeClick (sampleEdge "e1" "n1" "n2"); DeleteNode "n2"]
             session0) = None
  \/ selectedEdge
       (ref_run [NodeClick (sampleNode "n1" "A" 10 100);
                 EdgeClick (sampleEdge "e1" "n1" "n2"); DeleteNode "n2"]
                session0) = None.
Proof.
  apply (selection_is_exclusive
           ref_applyNodeChanges ref_applyEdgeChanges ref_addEdge).
  left. reflexivity.
Defined.

Lemma unknown_column_witness :
  pos_x (position (newNode session0 taskZ 3)) = (-270)%Z.
Proof.
  apply new_node_in_unknown_column.
  intros col Hcol. each_member Hcol; subst col; discriminate.
Defined.

Lemma placed_below_witness :
  (220 + 120 <= pos_y (position (newNode session0 taskA 3)))%Z.
Proof.
  apply (new_node_is_placed_below session0 taskA 3 "A"
                                  (sampleNode "n2" "A" 10 220)).
  - reflexivity.
  - simpl. auto.
  - split; reflexivity.
Defined.

Lemma columnB_is_new : ~ has_column "B" session0.
Proof.
  intros [c [Hc E]]. each_member Hc; subst c; discriminate E.
Defined.

Lemma new_column_slot_witness :
  pos_x (position (newNode (ref_dispatch (AddColumn columnB) session0)
                           taskB 3))
  = pos_x (position (headerNode session0 columnB))
  /\ exists i,
       column_index (availableColumns session_AB) "A" i
       /\ pos_x (position
                   (newNode (ref_dispatch (AddColumn columnA) session_AB)
                            taskA 3))
          = (Z.of_nat i * (200 + 80) + (200 - 180) / 2)%Z
       /\ (pos_x (position
                    (newNode (ref_dispatch (AddColumn columnA) session_AB)
                             taskA 3))
           < pos_x (position (headerNode session_AB columnA)))%Z.
Proof.
  split.
  - destruct (new_column_slot
                ref_applyNodeChanges ref_applyEdgeChanges ref_addEdge
                columnB taskB 3 session0 eq_refl) as [_ [H _]].
    exact (H columnB_is_new).
  - destruct (new_column_slot
                ref_applyNodeChanges ref_applyEdgeChanges ref_addEdge
                columnA taskA 3 session_AB eq_refl) as [_ [_ H]].
    apply H. exists columnA. split; [simpl; auto | reflexivity].
Defined.

Lemma creations_stack_witness :
  exists created,
    nodes (ref_run (creation_events [(taskA, 1%N); (taskA, 2%N);
                                     (taskA, 3%N); (taskA, 4%N)])
                   session_columnA)
    = nodes session_columnA ++ created
    /\ List.length created = 4%nat
    /\ forall k n, nth_error created k = Some n ->
                   pos_y (position n) = (100 + 120 * Z.of_nat k)%Z.
Proof.
  apply (creations_stack_from_100
           ref_applyNodeChanges ref_applyEdgeChanges ref_addEdge
           "A" [(taskA, 1%N); (taskA, 2%N); (taskA, 3%N); (taskA, 4%N)]
           session_columnA).
  - intros c Hc. each_member Hc; subst c; split; reflexivity.
  - exact columnA_has_no_task.
Defined.

Lemma session0_well_formed : all_well_formed session0.
Proof.
  split.
  - split; [exact session0_ids_distinct |].
    intros e He. each_member He; subst e. simpl. auto.
  - intros e He. each_member He.
Defined.

Lemma events_keep_well_formed_witness :
  all_well_formed
    (ref_run [CreateNode taskA 5; DeleteNode "n1"; Undo;
              AddColumn columnB; UpdateNode "n2" (taskData "B" "moved")]
             session0).
Proof.
  apply (events_keep_well_formed
           ref_applyNodeChanges ref_applyEdgeChanges ref_addEdge).
  - exact session0_well_formed.
  - simpl. repeat split; try exact I; intros H; each_member H;
      discriminate H.
Defined.

Lemma typing_witness :
  keydown ref_encode typingPage (plain "Delete") (startFlow session_selected)
  = startFlow session_selected.
Proof.
  apply typing_disables_shortcuts. left. reflexivity.
Defined.

Lemma canvas_outside_text_input : outside_text_input canvasPage.
Proof. split; discriminate. Defined.

Lemma keyboard_undo_redo_witness :
  keydown ref_encode canvasPage (ctrl "z") (startFlow session0)
  = startFlow session0
  /\ keydown ref_encode canvasPage (ctrl "z") (startFlow session_two)
     = on_session (ref_dispatch Undo)
                  (call PreventDefault (startFlow session_two))
  /\ keydown ref_encode canvasPage (ctrl "y") (startFlow session_after_undo)
     = on_session (ref_dispatch Redo)
                  (call PreventDefault (startFlow session_after_undo)).
Proof.
  split; [| split].
  - destruct (keyboard_undo_redo
                ref_applyNodeChanges ref_applyEdgeChanges ref_addEdge
                ref_encode canvasPage (ctrl "z") (startFlow session0)
                canvas_outside_text_input eq_refl) as [H _].
    destruct (H eq_refl eq_refl) as [H0 _]. exact (H0 eq_refl).
  - destruct (keyboard_undo_redo
                ref_applyNodeChanges ref_applyEdgeChanges ref_addEdge
                ref_encode canvasPage (ctrl "z") (startFlow session_two)
                canvas_outside_text_input eq_refl) as [H _].
    destruct (H eq_refl eq_refl) as [_ H1]. apply H1. discriminate.
  - destruct (keyboard_undo_redo
                ref_applyNodeChanges ref_applyEdgeChanges ref_addEdge
                ref_encode canvasPage (ctrl "y")
                (startFlow session_after_undo)
                canvas_outside_text_input eq_refl) as [_ H].
    apply H. left. reflexivity.
Defined.

Lemma keyboard_delete_witness :
  keydown ref_encode canvasPage (plain "Delete") (startFlow session0)
  = startFlow session0
  /\ selectedNode
       (session (keydown ref_encode canvasPage (ctrl "Backspace")
                         (startFlow session_selected))) = None
  /\ ~ has_node "n1"
       (session (keydown ref_encode canvasPage (ctrl "Backspace")
                         (startFlow session_selected))).
Proof.
  split.
  - destruct (keyboard_delete
                ref_applyNodeChanges ref_applyEdgeChanges ref_addEdge
                ref_encode canvasPage (plain "Delete") (startFlow session0)
                canvas_outside_text_input (or_introl eq_refl)) as [H _].
    exact (H eq_refl).
  - destruct (keyboard_delete
                ref_applyNodeChanges ref_applyEdgeChanges ref_addEdge
                ref_encode canvasPage (ctrl "Backspace")
                (startFlow session_selected)
                canvas_outside_text_input (or_intror eq_refl)) as [_ H].
    destruct (H (sampleNode "n1" "A" 10 100) eq_refl) as [_ [H1 [H2 _]]].
    split; [exact H1 | exact H2].
Defined.

Lemma other_keys_witness :
  same_diagram
    (keydown ref_encode canvasPage (mkKey true false true "s")
             (startFlow session_two))
    (startFlow session_two).
Proof.
  apply other_keys_leave_the_diagram.
  intros H. unfold editing_key in H. simpl in H.
  destruct H as [H | [H | [H | H]]]; discriminate H.
Defined.

Lemma saved_document_witness :
  exists doc,
    stored "flowChart"
           (calls (handleSave (startFlow session0) (startFlow session0)))
    = Some doc
    /\ (well_formed (entry_nodes doc) (entry_edges doc) <->
        forall e, In e (edges session0) ->
                  ~ header_id session0 (source e)
                  /\ ~ header_id session0 (target e)).
Proof.
  apply (saved_document_well_formed (startFlow session0)).
  exact (proj1 session0_well_formed).
Defined.

Lemma date_has_no_T : ~ occurs_in "T" "2024-05-01".
Proof.
  pose proof (index_spec "T" ltac:(discriminate) "2024-05-01") as H.
  vm_compute in H. exact H.
Defined.

Lemma image_file_name_witness :
  calls (imageTimer (Resolved "data:image/png;base64,AAAA") Thrown
                    "2024-05-01T10:20:30.000Z" (startFlow session0))
  = [Download "flowchart-2024-05-01.png" "data:image/png;base64,AAAA"]
  /\ calls (imageTimer (Rejected "tainted canvas")
                       (Resolved "data:image/png;base64,AAAA")
                       "2024-05-01T10:20:30.000Z" (startFlow session0))
     = [Download "flowchart-2024-05-01-alt.png" "data:image/png;base64,AAAA"].
Proof.
  exact (image_file_is_named_by_date
           "2024-05-01" "10:20:30.000Z" "data:image/png;base64,AAAA"
           "tainted canvas" Thrown (startFlow session0) date_has_no_T).
Defined.

Lemma image_export_witness :
  exists message,
    last_toast (imageTimer (Rejected "tainted canvas") (Rejected "again")
                           "2024-05-01T10:20:30.000Z" (startFlow session0))
    = Some (toast_error, message).
Proof.
  destruct (image_export_outcomes
              (Rejected "tainted canvas") (Rejected "again")
              "2024-05-01T10:20:30.000Z" (startFlow session0))
    as [_ [[offered [Hc [_ [_ Hl]]]] _]].
  destruct offered as [| c offered]; [| discriminate Hc].
  apply Hl. discriminate.
Defined.

(** * The selection over every handler *)

Section Selection.

Variable applyNodeChanges : list NodeChange -> list Node -> list Node.
Variable applyEdgeChanges : list EdgeChange -> list Edge -> list Edge.
Variable addEdge : EdgeParams -> list Edge -> list Edge.
Variable encodeURIComponent : string -> string.

Local Abbreviation step := (dispatch applyNodeChanges applyEdgeChanges addEdge).
Local Abbreviation does :=
  (act applyNodeChanges applyEdgeChanges addEdge encodeURIComponent).
Local Abbreviation does_all :=
  (perform applyNodeChanges applyEdgeChanges addEdge encodeURIComponent).

Ltac branch_by_branch :=
  repeat match goal with
         | |- context [if ?c then _ else _] => destruct c
         | |- context [match instance ?p with _ => _ end] =>
             destruct (instance p)
         | |- context [match nth_error ?l ?k with _ => _ end] =>
             destruct (nth_error l k)
         | |- context [match selectedNode ?s with _ => _ end] =>
             destruct (selectedNode s)
         end.

(** A key other than Delete and Backspace leaves the selection alone. *)
Lemma keydown_keeps_selection (page : Page) (event : KeyboardEvent)
  (v : Flow) :
  String.eqb (key event) "Delete" || String.eqb (key event) "Backspace"
  = false ->
  selectedNode (session (keydown encodeURIComponent page event v))
  = selectedNode (session v).
Proof.
  intros Hk. apply orb_false_iff in Hk as [Kd Kb].
  unfold keydown, handleKeyDown, handleSaveAsImage, handleExport,
         handleZoomIn, handleZoomOut, handleFitView, handleUndo, handleRedo;
    cbv zeta.
  rewrite Kd, Kb. cbn [orb andb].
  branch_by_branch; reflexivity.
Qed.

Lemma action_keeps_selection (a : Action) (v : Flow) :
  sets_selection a = false ->
  selectedNode (session (does a v)) = selectedNode (session v).
Proof.
  destruct a; simpl sets_selection; intros Ha; try discriminate Ha.
  - exact (proj1 (selection_untouched applyNodeChanges applyEdgeChanges
                    addEdge ev (session v) Ha)).
  - now apply keydown_keeps_selection.
  - reflexivity.
  - unfold act, handleExport. destruct (instance page); reflexivity.
  - unfold act, handleSaveAsImage; cbv zeta. branch_by_branch; reflexivity.
  - unfold act, imageTimer; cbv zeta.
    destruct first; [| destruct second |]; reflexivity.
  - unfold act, handleZoomIn. destruct (instance page); reflexivity.
  - unfold act, handleZoomOut. destruct (instance page); reflexivity.
  - reflexivity.
  - reflexivity.
  - reflexivity.
Qed.

(** [deleteNode] does not touch the selection.  After [deleteNode(id)] of
    the selected node (the detail panel's [onDelete]) that node is still
    selected although the diagram no longer has a node of its id, and it
    stays selected through every handler of the component that follows,
    until one of those that set the selection runs: a click on a node, an
    edge or the pane, [closeDetails], or the Delete or Backspace key.
    [closeDetails] right after the deletion clears it. *)
Theorem deleted_node_stays_selected (n : Node) (v : Flow) :
  selectedNode (session v) = Some n ->
  let v1 := does (Canvas (DeleteNode (node_id n))) v in
  selectedNode (session v1) = Some n
  /\ ~ has_node (node_id n) (session v1)
  /\ (forall acts,
        forallb (fun a => negb (sets_selection a)) acts = true ->
        selectedNode (session (does_all acts v1)) = Some n)
  /\ selectedNode (session (does CloseDetails v1)) = None.
Proof.
  intros Hsel v1. split; [exact Hsel |]. split; [| split; [| reflexivity]].
  - intros [m [Hm E]]. simpl in Hm.
    apply filter_In in Hm as [_ Hm]. apply differs_iff in Hm. contradiction.
  - intros acts. assert (H1 : selectedNode (session v1) = Some n) by exact Hsel.
    revert H1. generalize v1. clear v1 Hsel.
    induction acts as [| a acts IH]; intros t Ht Hacts; [exact Ht |].
    simpl in Hacts. apply andb_true_iff in Hacts as [Ha Hacts].
    apply negb_true_iff in Ha.
    change (does_all (a :: acts) t) with (does_all acts (does a t)).
    apply IH; [| exact Hacts].
    now rewrite (action_keeps_selection a t Ha).
Qed.

End Selection.

Lemma deleted_node_stays_selected_witness :
  let v1 := act ref_applyNodeChanges ref_applyEdgeChanges ref_addEdge
                ref_encode (Canvas (DeleteNode "n1"))
                (startFlow session_selected) in
  selectedNode (session v1) = Some (sampleNode "n1" "A" 10 100)
  /\ ~ has_node "n1" (session v1)
  /\ selectedNode
       (session
          (perform ref_applyNodeChanges ref_applyEdgeChanges ref_addEdge
                   ref_encode
                   [Canvas Undo; KeyDown canvasPage (ctrl "y"); SaveClick;
                    Canvas (CreateNode taskA 9); ModalOpenChange true]
                   v1))
     = Some (sampleNode "n1" "A" 10 100).
Proof.
  destruct (deleted_node_stays_selected
              ref_applyNodeChanges ref_applyEdgeChanges ref_addEdge ref_encode
              (sampleNode "n1" "A" 10 100) (startFlow session_selected)
              eq_refl) as [H1 [H2 [H3 _]]].
  split; [exact H1 |]. split; [exact H2 |].
  exact (H3 [Canvas Undo; KeyDown canvasPage (ctrl "y"); SaveClick;
             Canvas (CreateNode taskA 9); ModalOpenChange true] eq_refl).
Defined.
